(** * gst-checksumsink: the frame-to-checksum transformation

    A shallow embedding of [gstchecksumsink.c]: the plane geometry
    ([get_plane_width_and_height]), the de-striding copy loop and the
    per-plane / whole-frame digest emission of [gst_checksum_sink_render].

    Machine integers ([guint], [gint]) are integers of [Z] with the 32-bit
    wrap-around written out.  Memory objects are byte lists and pointers into
    them are offsets.  The calls the element makes into GLib and GStreamer
    are recorded as a trace of events. *)

From Stdlib Require Import ZArith List Bool Lia String Ascii.
From Stdlib Require Import Init.Byte.
Import ListNotations.
Local Open Scope Z_scope.

(* ================================================================== *)
(** ** 32-bit unsigned arithmetic ([guint]) *)

Module Word32.

Definition modulus : Z := 2 ^ 32.

(** Reduction of a mathematical integer to a [guint]. *)
Definition wrap (x : Z) : Z := x mod modulus.

Definition in_range (x : Z) : Prop := 0 <= x < modulus.

Definition add (x y : Z) : Z := wrap (x + y).
Definition mul (x y : Z) : Z := wrap (x * y).
(** Unsigned division; the source only ever divides by the constant 2. *)
Definition div (x y : Z) : Z := x / y.

Definition not (x : Z) : Z := Z.lxor x (modulus - 1).
Definition rotl (n x : Z) : Z :=
  wrap (Z.lor (Z.shiftl x n) (Z.shiftr x (32 - n))).
Definition rotr (n x : Z) : Z := rotl (32 - n) x.

Fixpoint sum (l : list Z) : Z :=
  match l with
  | [] => 0
  | x :: r => add x (sum r)
  end.

End Word32.

(* ================================================================== *)
(** ** The checksum engine: GLib's [g_compute_checksum_for_data]

    The element delegates hashing to GLib.  GLib implements MD5 (RFC 1321),
    SHA-1 and SHA-256 (FIPS 180-4) and renders the digest as lowercase
    hexadecimal text; the definitions below follow those documents. *)

Module Digest.

Import Word32.

Definition byte_val (b : byte) : Z := Z.of_N (Byte.to_N b).

(** *** Message padding and block splitting *)

(** The number of zero bytes after the [0x80] marker so that the padded
    message, with its 8-byte length field, is a multiple of 64 bytes. *)
Definition pad_zeros (len : Z) : Z := (55 - len) mod 64.

Fixpoint be_bytes (n : nat) (x : Z) : list Z :=
  match n with
  | O => []
  | S n' => (Z.shiftr x (8 * Z.of_nat n')) mod 256 :: be_bytes n' x
  end.

Fixpoint le_bytes (n : nat) (x : Z) : list Z :=
  match n with
  | O => []
  | S n' => x mod 256 :: le_bytes n' (Z.shiftr x 8)
  end.

Definition pad (length_field : Z -> list Z) (msg : list Z) : list Z :=
  let len := Z.of_nat (List.length msg) in
  msg ++ 128 :: repeat 0 (Z.to_nat (pad_zeros len)) ++ length_field (8 * len).

Fixpoint be_word (l : list Z) : Z :=
  match l with
  | [] => 0
  | b :: r => Z.shiftl b (8 * Z.of_nat (List.length r)) + be_word r
  end.

Fixpoint le_word (l : list Z) : Z :=
  match l with
  | [] => 0
  | b :: r => b + Z.shiftl (le_word r) 8
  end.

(** [chunks n k l]: the first [n] consecutive pieces of [k] elements. *)
Fixpoint chunks (n : nat) (k : nat) (l : list Z) : list (list Z) :=
  match n with
  | O => []
  | S n' => firstn k l :: chunks n' k (skipn k l)
  end.

Definition words (word : list Z -> Z) (block : list Z) : list Z :=
  map word (chunks 16 4 block).

Definition blocks (padded : list Z) : list (list Z) :=
  chunks (List.length padded / 64) 64 padded.

(** *** SHA-1 *)

Module SHA1.

Definition f (t : Z) (b c d : Z) : Z :=
  if t <? 20 then Z.lor (Z.land b c) (Z.land (not b) d)
  else if t <? 40 then Z.lxor (Z.lxor b c) d
  else if t <? 60 then
    Z.lor (Z.lor (Z.land b c) (Z.land b d)) (Z.land c d)
  else Z.lxor (Z.lxor b c) d.

Definition K (t : Z) : Z :=
  if t <? 20 then 0x5a827999
  else if t <? 40 then 0x6ed9eba1
  else if t <? 60 then 0x8f1bbcdc
  else 0xca62c1d6.

(** The message schedule, most recent word first. *)
Fixpoint schedule (n : nat) (rev_w : list Z) : list Z :=
  match n with
  | O => rev_w
  | S n' =>
      let w :=
        rotl 1 (Z.lxor (Z.lxor (nth 2 rev_w 0) (nth 7 rev_w 0))
                       (Z.lxor (nth 13 rev_w 0) (nth 15 rev_w 0))) in
      schedule n' (w :: rev_w)
  end.

Definition state : Type := Z * Z * Z * Z * Z.

Definition round (st : state * Z) (w : Z) : state * Z :=
  let '((a, b, c, d, e), t) := st in
  let tmp := sum [rotl 5 a; f t b c d; e; w; K t] in
  ((tmp, a, rotl 30 b, c, d), t + 1).

Definition compress (h : state) (block : list Z) : state :=
  let w := rev (schedule 64 (rev (words be_word block))) in
  let '(h0, h1, h2, h3, h4) := h in
  let '((a, b, c, d, e), _) := fold_left round w (h, 0) in
  (add h0 a, add h1 b, add h2 c, add h3 d, add h4 e).

Definition init : state :=
  (0x67452301, 0xefcdab89, 0x98badcfe, 0x10325476, 0xc3d2e1f0).

Definition digest (msg : list Z) : list Z :=
  let '(h0, h1, h2, h3, h4) :=
    fold_left compress (blocks (pad (be_bytes 8) msg)) init in
  flat_map (be_bytes 4) [h0; h1; h2; h3; h4].

End SHA1.

(** *** SHA-256 *)

Module SHA256.

(** The first 64 primes. *)
Definition primes : list Z :=
  Eval vm_compute in
  filter
    (fun n => forallb (fun d => negb (n mod d =? 0))
                (map Z.of_nat (seq 2 (Z.to_nat n - 2))))
    (map Z.of_nat (seq 2 310)).

(** The integer cube root, found bit by bit from bit [k-1] down. *)
Fixpoint cube_root_bits (k : nat) (n r : Z) : Z :=
  match k with
  | O => r
  | S k' =>
      let c := r + 2 ^ Z.of_nat k' in
      cube_root_bits k' n (if c * c * c <=? n then c else r)
  end.

(** The round constants: the first 32 bits of the fractional parts of the
    cube roots of the first 64 primes. *)
Definition K : list Z :=
  Eval vm_compute in
  map (fun p => cube_root_bits 36 (p * 2 ^ 96) 0 mod modulus) primes.

Definition Ch (x y z : Z) : Z := Z.lxor (Z.land x y) (Z.land (not x) z).
Definition Maj (x y z : Z) : Z :=
  Z.lxor (Z.lxor (Z.land x y) (Z.land x z)) (Z.land y z).
Definition Sigma0 (x : Z) : Z :=
  Z.lxor (Z.lxor (rotr 2 x) (rotr 13 x)) (rotr 22 x).
Definition Sigma1 (x : Z) : Z :=
  Z.lxor (Z.lxor (rotr 6 x) (rotr 11 x)) (rotr 25 x).
Definition sigma0 (x : Z) : Z :=
  Z.lxor (Z.lxor (rotr 7 x) (rotr 18 x)) (Z.shiftr x 3).
Definition sigma1 (x : Z) : Z :=
  Z.lxor (Z.lxor (rotr 17 x) (rotr 19 x)) (Z.shiftr x 10).

Fixpoint schedule (n : nat) (rev_w : list Z) : list Z :=
  match n with
  | O => rev_w
  | S n' =>
      let w :=
        sum [sigma1 (nth 1 rev_w 0); nth 6 rev_w 0;
             sigma0 (nth 14 rev_w 0); nth 15 rev_w 0] in
      schedule n' (w :: rev_w)
  end.

Definition state : Type := list Z.

Definition round (st : state) (kw : Z * Z) : state :=
  match st with
  | [a; b; c; d; e; f; g; h] =>
      let t1 := sum [h; Sigma1 e; Ch e f g; fst kw; snd kw] in
      let t2 := add (Sigma0 a) (Maj a b c) in
      [add t1 t2; a; b; c; add d t1; e; f; g]
  | _ => st
  end.

Fixpoint add_states (h s : state) : state :=
  match h, s with
  | x :: h', y :: s' => add x y :: add_states h' s'
  | _, _ => []
  end.

Definition compress (h : state) (block : list Z) : state :=
  let w := rev (schedule 48 (rev (words be_word block))) in
  add_states h (fold_left round (combine K w) h).

(** The initial hash value: the first 32 bits of the fractional parts of
    the square roots of the first 8 primes. *)
Definition init : state :=
  Eval vm_compute in
  map (fun p => Z.sqrt (p * 2 ^ 64) mod modulus) (firstn 8 primes).

Definition digest (msg : list Z) : list Z :=
  flat_map (be_bytes 4)
    (fold_left compress (blocks (pad (be_bytes 8) msg)) init).

End SHA256.

(** *** MD5 *)

Module MD5.

Definition K : list Z :=
  [ 0xd76aa478; 0xe8c7b756; 0x242070db; 0xc1bdceee;
    0xf57c0faf; 0x4787c62a; 0xa8304613; 0xfd469501;
    0x698098d8; 0x8b44f7af; 0xffff5bb1; 0x895cd7be;
    0x6b901122; 0xfd987193; 0xa679438e; 0x49b40821;
    0xf61e2562; 0xc040b340; 0x265e5a51; 0xe9b6c7aa;
    0xd62f105d; 0x02441453; 0xd8a1e681; 0xe7d3fbc8;
    0x21e1cde6; 0xc33707d6; 0xf4d50d87; 0x455a14ed;
    0xa9e3e905; 0xfcefa3f8; 0x676f02d9; 0x8d2a4c8a;
    0xfffa3942; 0x8771f681; 0x6d9d6122; 0xfde5380c;
    0xa4beea44; 0x4bdecfa9; 0xf6bb4b60; 0xbebfbc70;
    0x289b7ec6; 0xeaa127fa; 0xd4ef3085; 0x04881d05;
    0xd9d4d039; 0xe6db99e5; 0x1fa27cf8; 0xc4ac5665;
    0xf4292244; 0x432aff97; 0xab9423a7; 0xfc93a039;
    0x655b59c3; 0x8f0ccc92; 0xffeff47d; 0x85845dd1;
    0x6fa87e4f; 0xfe2ce6e0; 0xa3014314; 0x4e0811a1;
    0xf7537e82; 0xbd3af235; 0x2ad7d2bb; 0xeb86d391 ].

Definition S : list Z :=
  [ 7; 12; 17; 22; 7; 12; 17; 22; 7; 12; 17; 22; 7; 12; 17; 22;
    5; 9; 14; 20; 5; 9; 14; 20; 5; 9; 14; 20; 5; 9; 14; 20;
    4; 11; 16; 23; 4; 11; 16; 23; 4; 11; 16; 23; 4; 11; 16; 23;
    6; 10; 15; 21; 6; 10; 15; 21; 6; 10; 15; 21; 6; 10; 15; 21 ].

Definition state : Type := Z * Z * Z * Z.

Definition F (i : Z) (b c d : Z) : Z :=
  if i <? 16 then Z.lor (Z.land b c) (Z.land (not b) d)
  else if i <? 32 then Z.lor (Z.land d b) (Z.land (not d) c)
  else if i <? 48 then Z.lxor (Z.lxor b c) d
  else Z.lxor c (Z.lor b (not d)).

Definition g (i : Z) : Z :=
  if i <? 16 then i
  else if i <? 32 then (5 * i + 1) mod 16
  else if i <? 48 then (3 * i + 5) mod 16
  else (7 * i) mod 16.

Definition round (m : list Z) (st : state * Z) (ks : Z * Z)
  : state * Z :=
  let '((a, b, c, d), i) := st in
  let x := sum [F i b c d; a; fst ks; nth (Z.to_nat (g i)) m 0] in
  ((d, add b (rotl (snd ks) x), b, c), i + 1).

Definition compress (h : state) (block : list Z) : state :=
  let m := words le_word block in
  let '(h0, h1, h2, h3) := h in
  let '((a, b, c, d), _) := fold_left (round m) (combine K S) (h, 0) in
  (add h0 a, add h1 b, add h2 c, add h3 d).

Definition init : state :=
  (0x67452301, 0xefcdab89, 0x98badcfe, 0x10325476).

Definition digest (msg : list Z) : list Z :=
  let '(h0, h1, h2, h3) :=
    fold_left compress (blocks (pad (le_bytes 8) msg)) init in
  flat_map (le_bytes 4) [h0; h1; h2; h3].

End MD5.

(** *** Hexadecimal rendering *)

Definition hex_digit (n : Z) : ascii :=
  nth (Z.to_nat n)
    ["0"; "1"; "2"; "3"; "4"; "5"; "6"; "7";
     "8"; "9"; "a"; "b"; "c"; "d"; "e"; "f"]%char "0"%char.

Fixpoint hex_string (l : list Z) : string :=
  match l with
  | [] => EmptyString
  | b :: r =>
      String (hex_digit (b / 16)) (String (hex_digit (b mod 16))
        (hex_string r))
  end.

End Digest.

(* ================================================================== *)
(** ** GLib and GStreamer types used by the element *)

Inductive GChecksumType : Set :=
| G_CHECKSUM_MD5
| G_CHECKSUM_SHA1
| G_CHECKSUM_SHA256.

(** The digest of [data], as lowercase hexadecimal text. *)
Definition g_compute_checksum_for_data (checksum_type : GChecksumType)
    (data : list byte) : string :=
  let msg := map Digest.byte_val data in
  Digest.hex_string
    match checksum_type with
    | G_CHECKSUM_MD5 => Digest.MD5.digest msg
    | G_CHECKSUM_SHA1 => Digest.SHA1.digest msg
    | G_CHECKSUM_SHA256 => Digest.SHA256.digest msg
    end.

(** The head of GStreamer's [GstVideoFormat] enumeration. *)
Inductive GstVideoFormat : Set :=
| GST_VIDEO_FORMAT_UNKNOWN
| GST_VIDEO_FORMAT_ENCODED
| GST_VIDEO_FORMAT_I420
| GST_VIDEO_FORMAT_YV12
| GST_VIDEO_FORMAT_YUY2
| GST_VIDEO_FORMAT_UYVY
| GST_VIDEO_FORMAT_AYUV
| GST_VIDEO_FORMAT_RGBx
| GST_VIDEO_FORMAT_BGRx
| GST_VIDEO_FORMAT_xRGB
| GST_VIDEO_FORMAT_xBGR
| GST_VIDEO_FORMAT_RGBA
| GST_VIDEO_FORMAT_BGRA
| GST_VIDEO_FORMAT_ARGB
| GST_VIDEO_FORMAT_ABGR
| GST_VIDEO_FORMAT_RGB
| GST_VIDEO_FORMAT_BGR
| GST_VIDEO_FORMAT_Y41B
| GST_VIDEO_FORMAT_Y42B
| GST_VIDEO_FORMAT_YVYU
| GST_VIDEO_FORMAT_Y444
| GST_VIDEO_FORMAT_v210
| GST_VIDEO_FORMAT_v216
| GST_VIDEO_FORMAT_NV12
| GST_VIDEO_FORMAT_NV21
| GST_VIDEO_FORMAT_GRAY8.

Definition format_eqb (a b : GstVideoFormat) : bool :=
  match a, b with
  | GST_VIDEO_FORMAT_UNKNOWN, GST_VIDEO_FORMAT_UNKNOWN
  | GST_VIDEO_FORMAT_ENCODED, GST_VIDEO_FORMAT_ENCODED
  | GST_VIDEO_FORMAT_I420, GST_VIDEO_FORMAT_I420
  | GST_VIDEO_FORMAT_YV12, GST_VIDEO_FORMAT_YV12
  | GST_VIDEO_FORMAT_YUY2, GST_VIDEO_FORMAT_YUY2
  | GST_VIDEO_FORMAT_UYVY, GST_VIDEO_FORMAT_UYVY
  | GST_VIDEO_FORMAT_AYUV, GST_VIDEO_FORMAT_AYUV
  | GST_VIDEO_FORMAT_RGBx, GST_VIDEO_FORMAT_RGBx
  | GST_VIDEO_FORMAT_BGRx, GST_VIDEO_FORMAT_BGRx
  | GST_VIDEO_FORMAT_xRGB, GST_VIDEO_FORMAT_xRGB
  | GST_VIDEO_FORMAT_xBGR, GST_VIDEO_FORMAT_xBGR
  | GST_VIDEO_FORMAT_RGBA, GST_VIDEO_FORMAT_RGBA
  | GST_VIDEO_FORMAT_BGRA, GST_VIDEO_FORMAT_BGRA
  | GST_VIDEO_FORMAT_ARGB, GST_VIDEO_FORMAT_ARGB
  | GST_VIDEO_FORMAT_ABGR, GST_VIDEO_FORMAT_ABGR
  | GST_VIDEO_FORMAT_RGB, GST_VIDEO_FORMAT_RGB
  | GST_VIDEO_FORMAT_BGR, GST_VIDEO_FORMAT_BGR
  | GST_VIDEO_FORMAT_Y41B, GST_VIDEO_FORMAT_Y41B
  | GST_VIDEO_FORMAT_Y42B, GST_VIDEO_FORMAT_Y42B
  | GST_VIDEO_FORMAT_YVYU, GST_VIDEO_FORMAT_YVYU
  | GST_VIDEO_FORMAT_Y444, GST_VIDEO_FORMAT_Y444
  | GST_VIDEO_FORMAT_v210, GST_VIDEO_FORMAT_v210
  | GST_VIDEO_FORMAT_v216, GST_VIDEO_FORMAT_v216
  | GST_VIDEO_FORMAT_NV12, GST_VIDEO_FORMAT_NV12
  | GST_VIDEO_FORMAT_NV21, GST_VIDEO_FORMAT_NV21
  | GST_VIDEO_FORMAT_GRAY8, GST_VIDEO_FORMAT_GRAY8 => true
  | _, _ => false
  end.

(** [finfo->n_planes], from GStreamer's format table. *)
Definition n_planes_of (format : GstVideoFormat) : Z :=
  match format with
  | GST_VIDEO_FORMAT_UNKNOWN | GST_VIDEO_FORMAT_ENCODED => 0
  | GST_VIDEO_FORMAT_I420 | GST_VIDEO_FORMAT_YV12
  | GST_VIDEO_FORMAT_Y41B | GST_VIDEO_FORMAT_Y42B
  | GST_VIDEO_FORMAT_Y444 => 3
  | GST_VIDEO_FORMAT_NV12 | GST_VIDEO_FORMAT_NV21 => 2
  | _ => 1
  end.

(** The negotiated stream geometry.  Width and height are [gint]. *)
Record GstVideoInfo : Set := {
  info_format : GstVideoFormat;
  info_width : Z;
  info_height : Z
}.

(** Crop metadata carried by a buffer; all four fields are [guint]. *)
Record GstVideoCropMeta : Set := {
  crop_x : Z;
  crop_y : Z;
  crop_width : Z;
  crop_height : Z
}.

(** A frame mapped for reading: the mapped bytes, and per plane the offset
    of its first byte ([frame.data[plane]]) and its stride ([gint]). *)
Record GstVideoFrame : Set := {
  frame_mem : list byte;
  frame_data : list Z;
  frame_stride : list Z
}.

(** A buffer, as far as the element looks at it: its crop metadata, if
    any, and what mapping it for reading yields ([None]: it cannot be
    mapped). *)
Record GstBuffer : Set := {
  buffer_crop_meta : option GstVideoCropMeta;
  buffer_frame : option GstVideoFrame
}.

Record GstChecksumSink : Set := {
  vinfo : GstVideoInfo;
  checksum_type : GChecksumType;
  plane_checksum : bool
}.

Inductive GstFlowReturn : Set :=
| GST_FLOW_OK
| GST_FLOW_ERROR.

Definition gst_buffer_get_video_crop_meta (buffer : GstBuffer)
  : option GstVideoCropMeta := buffer_crop_meta buffer.

Definition gst_video_frame_map (info : GstVideoInfo) (buffer : GstBuffer)
  : option GstVideoFrame := buffer_frame buffer.

(* ================================================================== *)
(** ** Effects: the calls the element makes, and memory accesses *)

Inductive event : Set :=
| Ev_error (msg : string)            (* GST_ERROR_OBJECT *)
| Ev_frame_map (ok : bool)           (* gst_video_frame_map *)
| Ev_malloc (size : Z)               (* g_malloc *)
| Ev_print (text : string)           (* g_print *)
| Ev_free (ptr : Z)                  (* g_free of the scratch buffer *)
| Ev_frame_unmap.                    (* gst_video_frame_unmap *)

(** What one call of the render function amounts to. *)
Inductive outcome : Set :=
| Returned (ret : GstFlowReturn) (trace : list event)
| Aborted (trace : list event)       (* g_assert_not_reached *)
| Undefined.                         (* an access outside a memory object,
                                        or a read of an indeterminate value *)

Definition trace_of (o : outcome) : list event :=
  match o with
  | Returned _ tr | Aborted tr => tr
  | Undefined => []
  end.

(** Everything a trace wrote to standard output. *)
Fixpoint printed (tr : list event) : string :=
  match tr with
  | [] => EmptyString
  | Ev_print s :: r => (s ++ printed r)%string
  | _ :: r => printed r
  end.

Definition mallocs (tr : list event) : list Z :=
  flat_map (fun e => match e with Ev_malloc n => [n] | _ => [] end) tr.

Definition frees (tr : list event) : list Z :=
  flat_map (fun e => match e with Ev_free p => [p] | _ => [] end) tr.

Definition maps (tr : list event) : list bool :=
  flat_map (fun e => match e with Ev_frame_map b => [b] | _ => [] end) tr.

Definition len {A} (l : list A) : Z := Z.of_nat (List.length l).

(** The scratch buffer: one heap object whose cells are indeterminate
    ([None]) until written.  Pointers into it are offsets from its base,
    so the pointer [g_malloc] returns is offset 0. *)
Definition heap : Set := list (option byte).

Definition g_malloc (size : Z) : heap := repeat None (Z.to_nat size).

(** Reading [n] bytes at offset [p] of mapped memory. *)
Definition load (mem : list byte) (p n : Z) : option (list byte) :=
  if (0 <=? p) && (0 <=? n) && (p + n <=? len mem)
  then Some (firstn (Z.to_nat n) (skipn (Z.to_nat p) mem))
  else None.

(** Writing [bs] at offset [p] of the scratch buffer. *)
Definition store (hp : heap) (p : Z) (bs : list byte) : option heap :=
  if (0 <=? p) && (p + len bs <=? len hp)
  then Some (firstn (Z.to_nat p) hp ++ map Some bs
               ++ skipn (Z.to_nat (p + len bs)) hp)
  else None.

Definition memcpy (hp : heap) (dst : Z) (mem : list byte) (src n : Z)
  : option heap :=
  match load mem src n with
  | Some bs => store hp dst bs
  | None => None
  end.

Fixpoint determinate (cells : list (option byte)) : option (list byte) :=
  match cells with
  | [] => Some []
  | Some b :: r =>
      match determinate r with
      | Some bs => Some (b :: bs)
      | None => None
      end
  | None :: _ => None
  end.

(** Reading [n] bytes at offset [p] of the scratch buffer. *)
Definition load_heap (hp : heap) (p n : Z) : option (list byte) :=
  if (0 <=? p) && (0 <=? n) && (p + n <=? len hp)
  then determinate (firstn (Z.to_nat n) (skipn (Z.to_nat p) hp))
  else None.

Definition newline : string := String "010"%char EmptyString.

(* ================================================================== *)
(** ** The element *)

(** Instance initialisation assigns the two properties and nothing else;
    in particular it does not touch [vinfo], which only
    [gst_checksum_sink_set_caps] fills.  A value of [GstChecksumSink]
    stands for an element whose [vinfo] has been filled: the instance
    between its creation and the first caps, whose [vinfo] is zeroed
    memory with a null format description, is not a value of this type,
    and rendering on it is not modelled. *)
Definition gst_checksum_sink_init (checksumsink : GstChecksumSink)
  : GstChecksumSink :=
  {| vinfo := vinfo checksumsink;
     checksum_type := G_CHECKSUM_SHA1;
     plane_checksum := false |}.

(** The two properties of the element, with the value to set. *)
Inductive property : Set :=
| PROP_CHECKSUM_TYPE (value : GChecksumType)
| PROP_PLANE_CHECKSUM (value : bool).

Definition gst_checksum_sink_set_property (sink : GstChecksumSink)
    (prop : property) : GstChecksumSink :=
  match prop with
  | PROP_CHECKSUM_TYPE value =>
      {| vinfo := vinfo sink;
         checksum_type := value;
         plane_checksum := plane_checksum sink |}
  | PROP_PLANE_CHECKSUM value =>
      {| vinfo := vinfo sink;
         checksum_type := checksum_type sink;
         plane_checksum := value |}
  end.

(** Caps are given by the video info they describe; [None] is the null
    pointer. *)
Definition gst_checksum_sink_set_caps (checksumsink : GstChecksumSink)
    (caps : option GstVideoInfo) : GstChecksumSink :=
  match caps with
  | Some info =>
      {| vinfo := info;
         checksum_type := checksum_type checksumsink;
         plane_checksum := plane_checksum checksumsink |}
  | None => checksumsink
  end.

Definition get_plane_width_and_height (plane width height : Z) : Z * Z :=
  if negb (plane =? 0)
  then (Word32.div width 2, Word32.div height 2)
  else (width, height).

(** The effective frame size: lines 244-252 of the render function. *)
Definition frame_size (checksumsink : GstChecksumSink) (buffer : GstBuffer)
  : Z * Z :=
  match gst_buffer_get_video_crop_meta buffer with
  | None =>
      (Word32.wrap (info_width (vinfo checksumsink)),
       Word32.wrap (info_height (vinfo checksumsink)))
  | Some crop_meta => (crop_width crop_meta, crop_height crop_meta)
  end.

(** The sizes computed at lines 262-266: [(Ysize, Usize, Vsize, size)]. *)
Definition packed_sizes (width height : Z) : Z * Z * Z * Z :=
  let Ysize := Word32.mul width height in
  let Usize := Word32.mul (Word32.div width 2) (Word32.div height 2) in
  let Vsize := Usize in
  let size := Word32.add (Word32.add Ysize Usize) Vsize in
  (Ysize, Usize, Vsize, size).

(** Local state of the plane loop. *)
Record locals : Set := {
  l_heap : heap;             (* contents of the scratch buffer *)
  l_data : Z;                (* [data], as an offset from [dp] *)
  l_pp : option Z;           (* [pp]; [None] while unassigned *)
  l_trace : list event       (* calls made so far, latest last *)
}.

(** The row loop, lines 285-289; the state is [(heap, data, sp)]. *)
Fixpoint copy_rows (h : nat) (w stride : Z) (mem : list byte)
    (st : heap * Z * Z) : option (heap * Z * Z) :=
  match h with
  | O => Some st
  | S h' =>
      let '(hp, data, sp) := st in
      match memcpy hp data mem sp w with
      | Some hp' => copy_rows h' w stride mem (hp', data + w, sp + stride)
      | None => None
      end
  end.

(** The [switch] of lines 294-317: the new [pp] and [plane_size].  For a
    plane index above 2 no case applies and [plane_size] is read while
    indeterminate. *)
Definition plane_range (format : GstVideoFormat) (plane dp : Z)
    (Ysize Usize Vsize : Z) : option (Z * Z) :=
  if plane =? 0 then Some (dp, Ysize)
  else if plane =? 1 then
    Some (dp + Ysize,
          if format_eqb format GST_VIDEO_FORMAT_I420 then Usize else Vsize)
  else if plane =? 2 then
    if format_eqb format GST_VIDEO_FORMAT_I420
    then Some (dp + Ysize + Usize, Vsize)
    else Some (dp + Ysize + Vsize, Usize)
  else None.

(** One iteration of the plane loop, lines 281-324. *)
Definition plane_body (checksumsink : GstChecksumSink)
    (frame : GstVideoFrame) (width height dp Ysize Usize Vsize : Z)
    (plane : Z) (st : locals) : option locals :=
  let sp := nth (Z.to_nat plane) (frame_data frame) 0 in
  let '(w, h) := get_plane_width_and_height plane width height in
  match copy_rows (Z.to_nat h) w
          (nth (Z.to_nat plane) (frame_stride frame) 0) (frame_mem frame)
          (l_heap st, l_data st, sp) with
  | None => None
  | Some (hp, data, _) =>
      if plane_checksum checksumsink then
        match plane_range (info_format (vinfo checksumsink)) plane dp
                Ysize Usize Vsize with
        | None => None
        | Some (pp, plane_size) =>
            match load_heap hp pp plane_size with
            | None => None
            | Some bytes =>
                let checksum :=
                  g_compute_checksum_for_data (checksum_type checksumsink)
                    bytes in
                Some {| l_heap := hp; l_data := data; l_pp := Some pp;
                        l_trace := l_trace st
                                   ++ [Ev_print (checksum ++ "  ")%string] |}
            end
        end
      else
        Some {| l_heap := hp; l_data := data; l_pp := l_pp st;
                l_trace := l_trace st |}
  end.

(** The plane loop, line 279: [n] iterations remain, starting at [plane]. *)
Fixpoint plane_loop (body : Z -> locals -> option locals) (n : nat)
    (plane : Z) (st : locals) : option locals :=
  match n with
  | O => Some st
  | S n' =>
      match body plane st with
      | Some st' => plane_loop body n' (plane + 1) st'
      | None => None
      end
  end.

Definition unsupported_msg : string :=
  "Unsupported raw video format, Only supporting I420 and YV12!!".

(** The render function.  It is handed the element by reference; the
    element as it is after the call is the second component. *)
Definition gst_checksum_sink_render (checksumsink : GstChecksumSink)
    (buffer : GstBuffer) : outcome * GstChecksumSink :=
  let '(width, height) := frame_size checksumsink buffer in
  let format := info_format (vinfo checksumsink) in
  if negb (format_eqb format GST_VIDEO_FORMAT_I420)
     && negb (format_eqb format GST_VIDEO_FORMAT_YV12)
  then (Returned GST_FLOW_ERROR [Ev_error unsupported_msg], checksumsink)
  else
    let '(Ysize, Usize, Vsize, size) := packed_sizes width height in
    match gst_video_frame_map (vinfo checksumsink) buffer with
    | None =>
        (Aborted [Ev_frame_map false; Ev_error "Failed to map frame"],
         checksumsink)
    | Some frame =>
        let n_planes := n_planes_of format in
        let dp := 0 in
        match plane_loop
                (plane_body checksumsink frame width height dp
                   Ysize Usize Vsize)
                (Z.to_nat n_planes) 0
                {| l_heap := g_malloc size; l_data := dp; l_pp := None;
                   l_trace := [Ev_frame_map true; Ev_malloc size] |} with
        | None => (Undefined, checksumsink)
        | Some st =>
            let data := dp in
            let tr :=
              if plane_checksum checksumsink
              then Some (l_trace st ++ [Ev_print newline])
              else
                match load_heap (l_heap st) data size with
                | None => None
                | Some bytes =>
                    let checksum :=
                      g_compute_checksum_for_data
                        (checksum_type checksumsink) bytes in
                    Some (l_trace st
                          ++ [Ev_print ("FrameChecksum " ++ checksum
                                        ++ newline)%string])
                end in
            match tr with
            | None => (Undefined, checksumsink)
            | Some tr =>
                (Returned GST_FLOW_OK (tr ++ [Ev_free data; Ev_frame_unmap]),
                 checksumsink)
            end
        end
    end.

(** A stream of buffers rendered one after the other by the same element;
    rendering stops at the first call that does not return [GST_FLOW_OK]. *)
Fixpoint render_stream (checksumsink : GstChecksumSink)
    (buffers : list GstBuffer) : list outcome :=
  match buffers with
  | [] => []
  | buffer :: rest =>
      let '(o, checksumsink') :=
        gst_checksum_sink_render checksumsink buffer in
      match o with
      | Returned GST_FLOW_OK _ => o :: render_stream checksumsink' rest
      | _ => [o]
      end
  end.

(* ================================================================== *)
(** ** What the copy loop computes *)

(** The bytes the row loop reads, as a function of the source alone:
    [h] rows of [w] bytes, the first at [sp], each next one [stride]
    further.  [None] when a row reaches outside the mapped memory. *)
Fixpoint rows (h : nat) (w stride : Z) (mem : list byte) (sp : Z)
  : option (list byte) :=
  match h with
  | O => Some []
  | S h' =>
      match load mem sp w with
      | Some r =>
          match rows h' w stride mem (sp + stride) with
          | Some rs => Some (r ++ rs)
          | None => None
          end
      | None => None
      end
  end.

(** The visible content of one plane of a mapped frame. *)
Definition plane_bytes (frame : GstVideoFrame) (width height plane : Z)
  : option (list byte) :=
  let '(w, h) := get_plane_width_and_height plane width height in
  rows (Z.to_nat h) w (nth (Z.to_nat plane) (frame_stride frame) 0)
    (frame_mem frame) (nth (Z.to_nat plane) (frame_data frame) 0).

(** Row [j] of a plane, [w] bytes wide. *)
Definition plane_row (frame : GstVideoFrame) (plane w j : Z)
  : option (list byte) :=
  load (frame_mem frame)
    (nth (Z.to_nat plane) (frame_data frame) 0
     + j * nth (Z.to_nat plane) (frame_stride frame) 0) w.

(** The exact packed byte count of a [width] x [height] 4:2:0 frame. *)
Definition packed_count (width height : Z) : Z :=
  width * height + 2 * ((width / 2) * (height / 2)).

Definition supported (format : GstVideoFormat) : Prop :=
  format = GST_VIDEO_FORMAT_I420 \/ format = GST_VIDEO_FORMAT_YV12.

(** Crop metadata whose fields are values of their C type. *)
Definition buffer_wf (buffer : GstBuffer) : Prop :=
  match buffer_crop_meta buffer with
  | None => True
  | Some crop =>
      Word32.in_range (crop_width crop) /\ Word32.in_range (crop_height crop)
  end.

(** The calls of a frame that is processed to the end: [b0], [b1], [b2]
    are the contents of the three planes in plane order. *)
Definition frame_trace (checksumsink : GstChecksumSink) (size : Z)
    (b0 b1 b2 : list byte) : list event :=
  let cs := g_compute_checksum_for_data (checksum_type checksumsink) in
  [Ev_frame_map true; Ev_malloc size]
  ++ (if plane_checksum checksumsink
      then [Ev_print (cs b0 ++ "  ")%string;
            Ev_print (cs b1 ++ "  ")%string;
            Ev_print (cs b2 ++ "  ")%string;
            Ev_print newline]
      else [Ev_print ("FrameChecksum " ++ cs (b0 ++ b1 ++ b2)%list
                      ++ newline)%string])
  ++ [Ev_free 0; Ev_frame_unmap].

(** [n] bytes of [l] from offset [p] on. *)
Definition slice {A} (l : list A) (p n : Z) : list A :=
  firstn (Z.to_nat n) (skipn (Z.to_nat p) l).

(* ================================================================== *)
(** ** The text of a digest *)

Definition digest_size (checksum_type : GChecksumType) : nat :=
  match checksum_type with
  | G_CHECKSUM_MD5 => 16
  | G_CHECKSUM_SHA1 => 20
  | G_CHECKSUM_SHA256 => 32
  end.

Definition is_hex (c : ascii) : bool :=
  existsb (Ascii.eqb c)
    ["0"; "1"; "2"; "3"; "4"; "5"; "6"; "7";
     "8"; "9"; "a"; "b"; "c"; "d"; "e"; "f"]%char.

Fixpoint string_forall (p : ascii -> bool) (s : string) : bool :=
  match s with
  | EmptyString => true
  | String c r => p c && string_forall p r
  end.

(** A digest as [g_compute_checksum_for_data] renders it. *)
Definition is_digest (checksum_type : GChecksumType) (d : string) : Prop :=
  string_forall is_hex d = true
  /\ String.length d = (2 * digest_size checksum_type)%nat.

(** The pieces of [s] between occurrences of [sep]. *)
Fixpoint split (sep : ascii) (s : string) : list string :=
  match s with
  | EmptyString => [EmptyString]
  | String c r =>
      if Ascii.eqb c sep then EmptyString :: split sep r
      else
        match split sep r with
        | w :: ws => String c w :: ws
        | [] => [String c EmptyString]
        end
  end.

(** The space-separated words of a line. *)
Definition words (s : string) : list string :=
  filter (fun w => negb (String.eqb w EmptyString)) (split " " s).

Definition no_newline (s : string) : Prop :=
  string_forall (fun c => negb (Ascii.eqb c "010")) s = true.

(** What the plane loop keeps of the row loop's result. *)
Definition written (r : option (heap * Z * Z)) : option (heap * Z) :=
  match r with
  | Some (hp, data, _) => Some (hp, data)
  | None => None
  end.

(** The bytes one plane's rows amount to, and the bytes the row loop
    writes for the three planes of a frame. *)
Definition plane_size (plane width height : Z) : Z :=
  let '(w, h) := get_plane_width_and_height plane width height in w * h.

Definition bytes_written (width height : Z) : Z :=
  plane_size 0 width height + plane_size 1 width height
  + plane_size 2 width height.

(* ================================================================== *)
(** ** Sample elements and buffers *)

Module Sample.

Definition info (format : GstVideoFormat) (width height : Z)
  : GstVideoInfo :=
  {| info_format := format; info_width := width; info_height := height |}.

(** An element negotiated to [width] x [height] of [format], with the
    properties as instance initialisation assigns them (SHA-1, whole
    frame). *)
Definition negotiated (format : GstVideoFormat) (width height : Z)
  : GstChecksumSink :=
  {| vinfo := info format width height;
     checksum_type := G_CHECKSUM_SHA1;
     plane_checksum := false |}.

(** An element with its default properties, negotiated to 4x4 I420. *)
Definition sink : GstChecksumSink := negotiated GST_VIDEO_FORMAT_I420 4 4.

(** An element in per-plane mode, negotiated to 4x4 of [format]. *)
Definition plane_sink (format : GstVideoFormat) : GstChecksumSink :=
  gst_checksum_sink_set_property (negotiated format 4 4)
    (PROP_PLANE_CHECKSUM true).

Definition buffer_of (frame : GstVideoFrame) : GstBuffer :=
  {| buffer_crop_meta := None; buffer_frame := Some frame |}.

(** A 4x4 frame of zero bytes, rows stored back to back. *)
Definition zero_frame : GstVideoFrame :=
  {| frame_mem := repeat x00 24;
     frame_data := [0; 16; 20; 0];
     frame_stride := [4; 2; 2; 0] |}.

Definition byte_of (n : N) : byte :=
  match Byte.of_N n with
  | Some b => b
  | None => x00
  end.

(** [h] rows of [w] bytes counting up from [first], each followed by
    [padding] bytes [fill]. *)
Fixpoint ramp (h : nat) (w padding : nat) (first : N) (fill : byte)
  : list byte :=
  match h with
  | O => []
  | S h' =>
      map (fun i => byte_of (first + N.of_nat i)) (seq 0 w)
      ++ repeat fill padding
      ++ ramp h' w padding (first + N.of_nat w) fill
  end.

(** A 4x4 frame with every byte different, rows stored back to back. *)
Definition tight_frame : GstVideoFrame :=
  {| frame_mem := ramp 4 4 0 1 x00 ++ ramp 2 2 0 17 x00 ++ ramp 2 2 0 21 x00;
     frame_data := [0; 16; 20; 0];
     frame_stride := [4; 2; 2; 0] |}.

(** The same picture with padded rows: strides 8, 4 and 6, and padding
    bytes that differ from plane to plane. *)
Definition padded_frame : GstVideoFrame :=
  {| frame_mem := ramp 4 4 4 1 xff ++ ramp 2 2 2 17 xee ++ ramp 2 2 4 21 xdd;
     frame_data := [0; 32; 40; 0];
     frame_stride := [8; 4; 6; 0] |}.

(** A crop of the top-left 2x2 corner. *)
Definition crop_2x2 : GstVideoCropMeta :=
  {| crop_x := 0; crop_y := 0; crop_width := 2; crop_height := 2 |}.

Definition cropped (frame : GstVideoFrame) : GstBuffer :=
  {| buffer_crop_meta := Some crop_2x2; buffer_frame := Some frame |}.

(** A buffer that cannot be mapped for reading. *)
Definition unmappable : GstBuffer :=
  {| buffer_crop_meta := None; buffer_frame := None |}.

(** The SHA-1 of 24 zero bytes, as text. *)
Definition sha1_zero24 : string := "d3399b7262fb56cb9ed053d68db9291c410839c4".

(** An element negotiated to 65536x65536 I420. *)
Definition huge_sink : GstChecksumSink :=
  negotiated GST_VIDEO_FORMAT_I420 65536 65536.

End Sample.

(* ================================================================== *)
(** ** The rest of the element: properties and the algorithm enumeration *)

(** The property identifiers, in the order of the [enum] of the source:
    [PROP_0] is 0. *)
Definition property_id (prop : property) : Z :=
  match prop with
  | PROP_CHECKSUM_TYPE _ => 1
  | PROP_PLANE_CHECKSUM _ => 2
  end.

(** [gst_checksum_sink_get_property]: the value stored into the [GValue],
    tagged with its property; [None] for an identifier that is not one of
    the two, for which the source only warns. *)
Definition gst_checksum_sink_get_property (sink : GstChecksumSink)
    (prop_id : Z) : option property :=
  if prop_id =? 1 then Some (PROP_CHECKSUM_TYPE (checksum_type sink))
  else if prop_id =? 2 then Some (PROP_PLANE_CHECKSUM (plane_checksum sink))
  else None.

(** One entry of the table handed to [g_enum_register_static]. *)
Record GEnumValue : Set := {
  enum_value : GChecksumType;
  enum_value_name : string;
  enum_value_nick : string
}.

Definition checksum_values : list GEnumValue :=
  [ {| enum_value := G_CHECKSUM_MD5;
       enum_value_name := "Use the MD5 hashing algorithm";
       enum_value_nick := "md5" |};
    {| enum_value := G_CHECKSUM_SHA1;
       enum_value_name := "Use the SHA-1 hashing algorithm";
       enum_value_nick := "sha1" |};
    {| enum_value := G_CHECKSUM_SHA256;
       enum_value_name := "Use the SHA-256 hashing algorithm";
       enum_value_nick := "sha256" |} ].

Section EnumType.

(** The type system of GLib is left abstract: a state, and a registration
    function that yields the new type identifier (0 when it fails). *)
Variable type_system : Type.
Variable g_enum_register_static :
  string -> list GEnumValue -> type_system -> Z * type_system.

(** [gst_checksum_sink_checksum_get_type]: the state is the static
    variable [checksum_type] of the function and the type system. *)
Definition gst_checksum_sink_checksum_get_type (st : Z * type_system)
  : Z * (Z * type_system) :=
  let '(checksum_type, types) := st in
  if checksum_type =? 0 then
    let '(t, types') :=
      g_enum_register_static "GChecksumType" checksum_values types in
    (t, (t, types'))
  else (checksum_type, st).

(** [n] calls in a row: the values returned, and the final state. *)
Fixpoint get_type_calls (n : nat) (st : Z * type_system)
  : list Z * (Z * type_system) :=
  match n with
  | O => ([], st)
  | S n' =>
      let '(t, st') := gst_checksum_sink_checksum_get_type st in
      let '(ts, st'') := get_type_calls n' st' in
      (t :: ts, st'')
  end.

End EnumType.

(** The number of [gst_video_frame_unmap] calls of a trace. *)
Definition unmaps (tr : list event) : nat :=
  List.length
    (filter (fun e => match e with Ev_frame_unmap => true | _ => false end)
       tr).

(** Every row of every plane of a [width] x [height] frame lies inside the
    mapped memory. *)
Definition readable (frame : GstVideoFrame) (width height : Z) : Prop :=
  forall plane j,
    0 <= plane < 3 ->
    0 <= j < snd (get_plane_width_and_height plane width height) ->
    plane_row frame plane
      (fst (get_plane_width_and_height plane width height)) j <> None.

(** [height] rows of [width] bytes of a plane, read from the first byte of
    the plane on: row [j] starts [j] strides after [frame.data[plane]]. *)
Definition rows_at (frame : GstVideoFrame) (plane : nat) (width height : Z)
  : list byte :=
  flat_map
    (fun j =>
       slice (frame_mem frame)
         (nth plane (frame_data frame) 0
          + Z.of_nat j * nth plane (frame_stride frame) 0) width)
    (seq 0 (Z.to_nat height)).



Definition with_crop (crop : option GstVideoCropMeta) (frame : GstVideoFrame)
  : GstBuffer :=
  {| buffer_crop_meta := crop; buffer_frame := Some frame |}.

(* ------------------------------------------------------------------ *)
(** *** Lists and lengths *)

Lemma len_nonneg {A} (l : list A) : 0 <= len l.
Proof. unfold len; lia. Qed.

Lemma len_app {A} (l k : list A) : len (l ++ k) = len l + len k.
Proof. unfold len; rewrite length_app; lia. Qed.

Lemma len_map {A B} (f : A -> B) (l : list A) : len (map f l) = len l.
Proof. unfold len; now rewrite length_map. Qed.

Lemma len_repeat {A} (x : A) (n : nat) : len (repeat x n) = Z.of_nat n.
Proof. unfold len; now rewrite repeat_length. Qed.

Lemma skipn_repeat_None {A} (x : A) (k n : nat) :
  skipn k (repeat x n) = repeat x (n - k).
Proof.
  revert n; induction k as [|k IH]; intros [|n]; simpl; auto.
Qed.

Lemma determinate_map_Some (bs : list byte) :
  determinate (map Some bs) = Some bs.
Proof.
  induction bs as [|b bs IH]; simpl; [reflexivity | now rewrite IH].
Qed.

(* ------------------------------------------------------------------ *)
(** *** Loads and stores *)

Lemma load_Some mem p n bs :
  load mem p n = Some bs ->
  0 <= p /\ 0 <= n /\ p + n <= len mem /\ len bs = n
  /\ bs = slice mem p n.
Proof.
  unfold load, slice.
  destruct (0 <=? p) eqn:Hp; [|discriminate].
  destruct (0 <=? n) eqn:Hn; [|discriminate].
  destruct (p + n <=? len mem) eqn:Hb; [|discriminate].
  simpl; intros [= <-].
  apply Z.leb_le in Hp, Hn, Hb.
  repeat split; try assumption.
  unfold len in *; rewrite length_firstn, length_skipn; lia.
Qed.

(** Appending to the written prefix of a scratch buffer whose tail is
    still indeterminate. *)
Lemma store_fresh (ws bs : list byte) (n : nat) :
  store (map Some ws ++ repeat None n) (len ws) bs =
  if (List.length bs <=? n)%nat
  then Some (map Some (ws ++ bs) ++ repeat None (n - List.length bs))
  else None.
Proof.
  unfold store.
  assert (H0 : (0 <=? len ws) = true) by (apply Z.leb_le, len_nonneg).
  rewrite H0; simpl.
  rewrite len_app, len_map, len_repeat.
  destruct (List.length bs <=? n)%nat eqn:Hle.
  - apply Nat.leb_le in Hle.
    replace (len ws + len bs <=? len ws + Z.of_nat n) with true
      by (symmetry; apply Z.leb_le; unfold len; lia).
    f_equal.
    replace (Z.to_nat (len ws)) with (List.length (map Some ws) + 0)%nat
      by (rewrite length_map; unfold len; lia).
    rewrite firstn_app_2; simpl; rewrite app_nil_r.
    replace (Z.to_nat (len ws + len bs))
      with (List.length (map Some ws) + List.length bs)%nat
      by (rewrite length_map; unfold len; lia).
    rewrite skipn_app, skipn_all2 by lia.
    replace (List.length (map Some ws) + List.length bs
             - List.length (map Some ws))%nat with (List.length bs) by lia.
    rewrite skipn_repeat_None, map_app, <- app_assoc.
    reflexivity.
  - apply Nat.leb_gt in Hle.
    replace (len ws + len bs <=? len ws + Z.of_nat n) with false
      by (symmetry; apply Z.leb_gt; unfold len; lia).
    reflexivity.
Qed.

(** Reading back a written piece of the scratch buffer. *)
Lemma load_heap_written (pre bs post : list byte) (rest : heap) :
  load_heap (map Some (pre ++ bs ++ post) ++ rest) (len pre) (len bs)
  = Some bs.
Proof.
  unfold load_heap.
  assert (H0 : (0 <=? len pre) = true) by (apply Z.leb_le, len_nonneg).
  assert (H1 : (0 <=? len bs) = true) by (apply Z.leb_le, len_nonneg).
  rewrite H0, H1; simpl.
  replace (len pre + len bs <=? _) with true.
  2:{ symmetry; apply Z.leb_le.
      rewrite !len_app, len_map, !len_app.
      pose proof (len_nonneg post); pose proof (len_nonneg rest); lia. }
  rewrite !map_app, <- !app_assoc.
  replace (Z.to_nat (len pre)) with (List.length (map Some pre) + 0)%nat
    by (rewrite length_map; unfold len; lia).
  rewrite skipn_app, skipn_all2 by lia.
  replace (List.length (map Some pre) + 0 - List.length (map Some pre))%nat
    with 0%nat by lia.
  simpl.
  replace (Z.to_nat (len bs)) with (List.length (map (@Some byte) bs) + 0)%nat
    by (rewrite length_map; unfold len; lia).
  rewrite firstn_app_2; simpl; rewrite app_nil_r.
  apply determinate_map_Some.
Qed.

(* ------------------------------------------------------------------ *)
(** *** The row loop *)

Lemma rows_length h w stride mem : forall sp bs,
  rows h w stride mem sp = Some bs -> len bs = Z.of_nat h * w.
Proof.
  induction h as [|h IH]; cbn [rows]; intros sp bs.
  - intros [= <-]; reflexivity.
  - destruct (load mem sp w) as [r|] eqn:Hr; [|discriminate].
    destruct (rows h w stride mem (sp + stride)) as [rs|] eqn:Hrs;
      [|discriminate].
    intros [= <-].
    apply load_Some in Hr as (_ & _ & _ & Hlen & _).
    rewrite len_app, Hlen, (IH _ _ Hrs), Nat2Z.inj_succ; lia.
Qed.

(** The row loop appends the rows it reads to the written prefix of the
    scratch buffer, or leaves the scratch buffer when they do not fit. *)
Lemma copy_rows_fresh h w stride mem : forall (ws : list byte) (n : nat) sp,
  copy_rows h w stride mem (map Some ws ++ repeat None n, len ws, sp) =
  match rows h w stride mem sp with
  | None => None
  | Some bs =>
      if (List.length bs <=? n)%nat
      then Some (map Some (ws ++ bs) ++ repeat None (n - List.length bs),
                 len (ws ++ bs), sp + Z.of_nat h * stride)
      else None
  end.
Proof.
  induction h as [|h IH]; intros ws n sp.
  - simpl. rewrite app_nil_r, Nat.sub_0_r.
    repeat f_equal; lia.
  - cbn [copy_rows rows]. unfold memcpy.
    destruct (load mem sp w) as [r|] eqn:Hr; [|reflexivity].
    rewrite store_fresh.
    destruct (List.length r <=? n)%nat eqn:Hle.
    + replace (len ws + w) with (len (ws ++ r)).
      2:{ apply load_Some in Hr as (_ & _ & _ & Hlen & _).
          rewrite len_app; lia. }
      rewrite IH.
      destruct (rows h w stride mem (sp + stride)) as [rs|]; [|reflexivity].
      rewrite length_app.
      apply Nat.leb_le in Hle.
      destruct (List.length rs <=? n - List.length r)%nat eqn:Hle2.
      * replace (List.length r + List.length rs <=? n)%nat with true
          by (symmetry; apply Nat.leb_le; apply Nat.leb_le in Hle2; lia).
        rewrite <- app_assoc, Nat2Z.inj_succ.
        replace (n - List.length r - List.length rs)%nat
          with (n - (List.length r + List.length rs))%nat by lia.
        replace (sp + stride + Z.of_nat h * stride)
          with (sp + Z.succ (Z.of_nat h) * stride) by lia.
        reflexivity.
      * replace (List.length r + List.length rs <=? n)%nat with false
          by (symmetry; apply Nat.leb_gt; apply Nat.leb_gt in Hle2; lia).
        reflexivity.
    + destruct (rows h w stride mem (sp + stride)) as [rs|]; [|reflexivity].
      rewrite length_app.
      replace (List.length r + List.length rs <=? n)%nat with false
        by (symmetry; apply Nat.leb_gt; apply Nat.leb_gt in Hle; lia).
      reflexivity.
Qed.

(* ------------------------------------------------------------------ *)
(** *** One plane *)

(** One iteration of the plane loop, started with [ws] written and [n]
    cells left: the plane's content is appended, and in per-plane mode its
    digest is printed. *)
Lemma plane_body_fresh checksumsink frame width height dp Ysize Usize Vsize
    plane st (ws : list byte) (n : nat) :
  l_heap st = map Some ws ++ repeat None n ->
  l_data st = len ws ->
  plane_body checksumsink frame width height dp Ysize Usize Vsize plane st =
  match plane_bytes frame width height plane with
  | None => None
  | Some bs =>
      if (List.length bs <=? n)%nat then
        let hp := map Some (ws ++ bs) ++ repeat None (n - List.length bs) in
        if plane_checksum checksumsink then
          match plane_range (info_format (vinfo checksumsink)) plane dp
                  Ysize Usize Vsize with
          | None => None
          | Some (pp, plane_size) =>
              match load_heap hp pp plane_size with
              | None => None
              | Some bytes =>
                  Some {| l_heap := hp; l_data := len (ws ++ bs);
                          l_pp := Some pp;
                          l_trace :=
                            l_trace st
                            ++ [Ev_print
                                  (g_compute_checksum_for_data
                                     (checksum_type checksumsink) bytes
                                   ++ "  ")%string] |}
              end
          end
        else
          Some {| l_heap := hp; l_data := len (ws ++ bs); l_pp := l_pp st;
                  l_trace := l_trace st |}
      else None
  end.
Proof.
  intros Hheap Hdata.
  unfold plane_body, plane_bytes.
  destruct (get_plane_width_and_height plane width height) as [w h].
  rewrite Hheap, Hdata, copy_rows_fresh.
  destruct (rows _ _ _ _ _) as [bs|]; [|reflexivity].
  destruct (List.length bs <=? n)%nat; reflexivity.
Qed.

Lemma plane_bytes_length frame width height plane bs :
  0 <= width -> 0 <= height ->
  plane_bytes frame width height plane = Some bs ->
  len bs =
  if plane =? 0 then width * height else (width / 2) * (height / 2).
Proof.
  intros Hw Hh. unfold plane_bytes, get_plane_width_and_height, Word32.div.
  destruct (plane =? 0); cbn [negb]; intros H%rows_length; rewrite H.
  - rewrite Z2Nat.id by assumption. lia.
  - rewrite Z2Nat.id by (apply Z.div_pos; lia). lia.
Qed.

(* ------------------------------------------------------------------ *)
(** *** Sizes *)

Lemma wrap_small x : 0 <= x < Word32.modulus -> Word32.wrap x = x.
Proof. intros H; unfold Word32.wrap; now apply Z.mod_small. Qed.

Lemma wrap_range x : Word32.in_range (Word32.wrap x).
Proof.
  unfold Word32.in_range, Word32.wrap, Word32.modulus.
  apply Z.mod_pos_bound; lia.
Qed.

Lemma chroma_nonneg width height :
  0 <= width -> 0 <= height -> 0 <= (width / 2) * (height / 2).
Proof.
  intros Hw Hh. apply Z.mul_nonneg_nonneg; apply Z.div_pos; lia.
Qed.

(** The size handed to [g_malloc] is the exact packed count reduced
    modulo [2^32]. *)
Lemma packed_sizes_wrap width height :
  packed_sizes width height =
  (Word32.wrap (width * height),
   Word32.wrap ((width / 2) * (height / 2)),
   Word32.wrap ((width / 2) * (height / 2)),
   Word32.wrap (packed_count width height)).
Proof.
  unfold packed_sizes, packed_count, Word32.add, Word32.mul, Word32.div,
    Word32.wrap.
  set (y := width * height). set (u := (width / 2) * (height / 2)).
  f_equal.
  rewrite Zplus_mod_idemp_l, Zplus_mod_idemp_r.
  rewrite <- Z.add_assoc, Zplus_mod_idemp_l.
  replace (y + (u mod Word32.modulus + u))
    with (u mod Word32.modulus + (y + u)) by lia.
  rewrite Zplus_mod_idemp_l.
  f_equal; lia.
Qed.

Lemma packed_sizes_exact width height :
  0 <= width -> 0 <= height ->
  packed_count width height < Word32.modulus ->
  packed_sizes width height =
  (width * height, (width / 2) * (height / 2), (width / 2) * (height / 2),
   packed_count width height).
Proof.
  intros Hw Hh Hfit.
  pose proof (chroma_nonneg width height Hw Hh) as Hu.
  assert (0 <= width * height) by (apply Z.mul_nonneg_nonneg; lia).
  rewrite packed_sizes_wrap.
  unfold packed_count in *.
  rewrite !wrap_small by lia.
  reflexivity.
Qed.

Lemma frame_size_range checksumsink buffer width height :
  buffer_wf buffer ->
  frame_size checksumsink buffer = (width, height) ->
  Word32.in_range width /\ Word32.in_range height.
Proof.
  unfold buffer_wf, frame_size, gst_buffer_get_video_crop_meta.
  destruct (buffer_crop_meta buffer) as [crop|].
  - intros [Hw Hh] [= <- <-]; split; assumption.
  - intros _ [= <- <-]; split; apply wrap_range.
Qed.

Lemma format_eqb_eq a b : format_eqb a b = true <-> a = b.
Proof.
  split.
  - destruct a, b; simpl; intros H; try reflexivity; discriminate H.
  - intros <-; destruct a; reflexivity.
Qed.

Lemma supported_n_planes format :
  supported format -> n_planes_of format = 3.
Proof. intros [-> | ->]; reflexivity. Qed.

Lemma supported_check format :
  supported format ->
  negb (format_eqb format GST_VIDEO_FORMAT_I420)
  && negb (format_eqb format GST_VIDEO_FORMAT_YV12) = false.
Proof. intros [-> | ->]; reflexivity. Qed.

Lemma unsupported_check format :
  ~ supported format ->
  negb (format_eqb format GST_VIDEO_FORMAT_I420)
  && negb (format_eqb format GST_VIDEO_FORMAT_YV12) = true.
Proof.
  intros H. unfold supported in H.
  destruct (format_eqb format GST_VIDEO_FORMAT_I420) eqn:E1.
  - apply format_eqb_eq in E1; tauto.
  - destruct (format_eqb format GST_VIDEO_FORMAT_YV12) eqn:E2.
    + apply format_eqb_eq in E2; tauto.
    + reflexivity.
Qed.

(** Both supported formats address the three planes at the same offsets of
    the scratch buffer, because [Vsize] is [Usize]. *)
Lemma plane_range_supported format dp Ysize Usize :
  supported format ->
  plane_range format 0 dp Ysize Usize Usize = Some (dp, Ysize)
  /\ plane_range format 1 dp Ysize Usize Usize = Some (dp + Ysize, Usize)
  /\ plane_range format 2 dp Ysize Usize Usize
     = Some (dp + Ysize + Usize, Usize).
Proof. intros [-> | ->]; repeat split; reflexivity. Qed.

(* ------------------------------------------------------------------ *)
(** *** The whole frame *)

Lemma load_heap_piece (ws : list byte) (rest : heap) p n
    (pre bs post : list byte) :
  ws = pre ++ bs ++ post -> p = len pre -> n = len bs ->
  load_heap (map Some ws ++ rest) p n = Some bs.
Proof. intros -> -> ->; apply load_heap_written. Qed.

Lemma plane_body_Some checksumsink frame width height dp Ysize Usize Vsize
    plane st st' (ws : list byte) (n : nat) :
  l_heap st = map Some ws ++ repeat None n ->
  l_data st = len ws ->
  plane_body checksumsink frame width height dp Ysize Usize Vsize plane st
  = Some st' ->
  exists bs,
    plane_bytes frame width height plane = Some bs
    /\ (List.length bs <= n)%nat
    /\ l_heap st' = map Some (ws ++ bs) ++ repeat None (n - List.length bs)
    /\ l_data st' = len (ws ++ bs).
Proof.
  intros Hheap Hdata.
  rewrite (plane_body_fresh _ _ _ _ _ _ _ _ _ _ ws n Hheap Hdata).
  destruct (plane_bytes frame width height plane) as [bs|]; [|discriminate].
  destruct (List.length bs <=? n)%nat eqn:Hle; [|discriminate].
  apply Nat.leb_le in Hle.
  cbv zeta.
  destruct (plane_checksum checksumsink).
  - destruct (plane_range _ _ _ _ _ _) as [[pp plane_size]|]; [|discriminate].
    destruct (load_heap _ _ _); [|discriminate].
    intros [= <-]; exists bs; auto.
  - intros [= <-]; exists bs; auto.
Qed.

(** A frame of a supported format whose planes can be read and whose
    packed count fits 32 bits is processed to the end. *)
(** [fits] settles the test that the rows of a plane still fit the scratch
    buffer, from the lengths in the context. *)
Ltac fits :=
  match goal with
  | |- context [(?a <=? ?b)%nat] =>
      replace (a <=? b)%nat with true by (symmetry; apply Nat.leb_le; lia)
  end.

Lemma render_ok checksumsink buffer frame width height b0 b1 b2 :
  supported (info_format (vinfo checksumsink)) ->
  buffer_frame buffer = Some frame ->
  frame_size checksumsink buffer = (width, height) ->
  0 <= width -> 0 <= height ->
  packed_count width height < Word32.modulus ->
  plane_bytes frame width height 0 = Some b0 ->
  plane_bytes frame width height 1 = Some b1 ->
  plane_bytes frame width height 2 = Some b2 ->
  fst (gst_checksum_sink_render checksumsink buffer) =
  Returned GST_FLOW_OK
    (frame_trace checksumsink (packed_count width height) b0 b1 b2).
Proof.
  intros Hfmt Hframe Hsize Hw Hh Hfit Hb0 Hb1 Hb2.
  pose proof (plane_bytes_length _ _ _ _ _ Hw Hh Hb0) as L0.
  pose proof (plane_bytes_length _ _ _ _ _ Hw Hh Hb1) as L1.
  pose proof (plane_bytes_length _ _ _ _ _ Hw Hh Hb2) as L2.
  cbn [Z.eqb] in L0, L1, L2.
  pose proof (chroma_nonneg width height Hw Hh) as Hu.
  destruct (plane_range_supported _ 0 (width * height)
              ((width / 2) * (height / 2)) Hfmt) as (R0 & R1 & R2).
  unfold gst_checksum_sink_render.
  rewrite Hsize, (supported_check _ Hfmt),
    (packed_sizes_exact _ _ Hw Hh Hfit).
  unfold gst_video_frame_map. rewrite Hframe, (supported_n_planes _ Hfmt).
  change (Z.to_nat 3) with 3%nat. cbn [plane_loop Z.add Pos.add].
  set (N := Z.to_nat (packed_count width height)).
  assert (HN : Z.of_nat N = len b0 + len b1 + len b2)
    by (unfold N, packed_count in *; lia).
  unfold len in HN.
  rewrite (plane_body_fresh _ _ _ _ _ _ _ _ _ _ [] N) by reflexivity.
  rewrite Hb0.
  fits.
  cbv beta iota zeta. unfold frame_trace.
  destruct (plane_checksum checksumsink) eqn:Hmode.
  - rewrite R0.
    rewrite (load_heap_piece _ _ _ _ [] b0 []);
      [ | now rewrite app_nil_r | reflexivity | lia ].
    erewrite plane_body_fresh by reflexivity.
    rewrite Hb1, Hmode.
    fits.
    cbv beta iota zeta. rewrite R1.
    rewrite (load_heap_piece _ _ _ _ b0 b1 []);
      [ | now rewrite app_nil_r | simpl; lia | lia ].
    erewrite plane_body_fresh by reflexivity.
    rewrite Hb2, Hmode.
    fits.
    cbv beta iota zeta. rewrite R2.
    rewrite (load_heap_piece _ _ _ _ (b0 ++ b1) b2 []);
      [ | now rewrite app_nil_r | simpl; rewrite len_app; lia | lia ].
    cbn [fst l_trace app]. reflexivity.
  - erewrite plane_body_fresh by reflexivity.
    rewrite Hb1, Hmode.
    fits.
    cbv beta iota zeta.
    erewrite plane_body_fresh by reflexivity.
    rewrite Hb2, Hmode.
    fits.
    cbv beta iota zeta. cbn [l_heap l_trace].
    rewrite (load_heap_piece _ _ _ _ [] (b0 ++ b1 ++ b2) []);
      [ | simpl; now rewrite app_nil_r, <- app_assoc | reflexivity
        | rewrite !len_app; unfold len, packed_count in *; lia ].
    cbn [fst app]. reflexivity.
Qed.

Lemma supported_dec format : {supported format} + {~ supported format}.
Proof.
  unfold supported.
  destruct (format_eqb format GST_VIDEO_FORMAT_I420) eqn:E1.
  - left; left; now apply format_eqb_eq.
  - destruct (format_eqb format GST_VIDEO_FORMAT_YV12) eqn:E2.
    + left; right; now apply format_eqb_eq.
    + right; intros [H | H]; apply format_eqb_eq in H; congruence.
Qed.

(** A frame of an unsupported format is rejected before anything else is
    done. *)
Lemma render_unsupported checksumsink buffer :
  ~ supported (info_format (vinfo checksumsink)) ->
  gst_checksum_sink_render checksumsink buffer =
  (Returned GST_FLOW_ERROR [Ev_error unsupported_msg], checksumsink).
Proof.
  intros H. unfold gst_checksum_sink_render.
  destruct (frame_size checksumsink buffer) as [width height].
  now rewrite (unsupported_check _ H).
Qed.

(** A frame that cannot be mapped stops the element. *)
Lemma render_unmapped checksumsink buffer :
  supported (info_format (vinfo checksumsink)) ->
  buffer_frame buffer = None ->
  gst_checksum_sink_render checksumsink buffer =
  (Aborted [Ev_frame_map false; Ev_error "Failed to map frame"],
   checksumsink).
Proof.
  intros Hfmt Hmap. unfold gst_checksum_sink_render.
  destruct (frame_size checksumsink buffer) as [width height].
  rewrite (supported_check _ Hfmt).
  destruct (packed_sizes width height) as [[[Ysize Usize] Vsize] size].
  unfold gst_video_frame_map. now rewrite Hmap.
Qed.

(** The render function never changes the element. *)
Lemma render_sink checksumsink buffer :
  snd (gst_checksum_sink_render checksumsink buffer) = checksumsink.
Proof.
  unfold gst_checksum_sink_render.
  destruct (frame_size checksumsink buffer) as [width height].
  destruct (negb _ && negb _); [reflexivity|].
  destruct (packed_sizes width height) as [[[Ysize Usize] Vsize] size].
  destruct (gst_video_frame_map _ _); [|reflexivity].
  destruct (plane_loop _ _ _ _); [|reflexivity].
  destruct (if plane_checksum checksumsink then _ else _); reflexivity.
Qed.

(** Once the frame is mapped, a call either runs to the end or its
    behaviour is undefined. *)
Lemma render_mapped_cases checksumsink buffer frame :
  supported (info_format (vinfo checksumsink)) ->
  buffer_frame buffer = Some frame ->
  fst (gst_checksum_sink_render checksumsink buffer) = Undefined
  \/ exists tr,
       fst (gst_checksum_sink_render checksumsink buffer)
       = Returned GST_FLOW_OK tr.
Proof.
  intros Hfmt Hmap. unfold gst_checksum_sink_render.
  destruct (frame_size checksumsink buffer) as [width height].
  rewrite (supported_check _ Hfmt).
  destruct (packed_sizes width height) as [[[Ysize Usize] Vsize] size].
  unfold gst_video_frame_map. rewrite Hmap.
  destruct (plane_loop _ _ _ _); [|now left].
  destruct (if plane_checksum checksumsink then _ else _);
    [right; eexists; reflexivity | now left].
Qed.

(** What a call that ran to the end has done. *)
Lemma render_returned_inv checksumsink buffer width height tr :
  frame_size checksumsink buffer = (width, height) ->
  0 <= width -> 0 <= height ->
  fst (gst_checksum_sink_render checksumsink buffer)
  = Returned GST_FLOW_OK tr ->
  supported (info_format (vinfo checksumsink))
  /\ packed_count width height < Word32.modulus
  /\ exists frame b0 b1 b2,
       buffer_frame buffer = Some frame
       /\ plane_bytes frame width height 0 = Some b0
       /\ plane_bytes frame width height 1 = Some b1
       /\ plane_bytes frame width height 2 = Some b2
       /\ tr = frame_trace checksumsink (packed_count width height) b0 b1 b2.
Proof.
  intros Hsize Hw Hh Hret.
  destruct (supported_dec (info_format (vinfo checksumsink))) as [Hfmt|Hfmt];
    [|now rewrite (render_unsupported _ _ Hfmt) in Hret].
  destruct (buffer_frame buffer) as [frame|] eqn:Hmap;
    [|now rewrite (render_unmapped _ _ Hfmt Hmap) in Hret].
  assert (Hplanes : exists b0 b1 b2,
             plane_bytes frame width height 0 = Some b0
             /\ plane_bytes frame width height 1 = Some b1
             /\ plane_bytes frame width height 2 = Some b2
             /\ len b0 + len b1 + len b2
                <= Word32.wrap (packed_count width height)).
  { revert Hret. unfold gst_checksum_sink_render.
    rewrite Hsize, (supported_check _ Hfmt), packed_sizes_wrap.
    unfold gst_video_frame_map. rewrite Hmap, (supported_n_planes _ Hfmt).
    change (Z.to_nat 3) with 3%nat. cbn [plane_loop Z.add Pos.add].
    set (N := Z.to_nat (Word32.wrap (packed_count width height))).
    destruct (plane_body _ _ _ _ _ _ _ _ 0 _) as [st1|] eqn:E0;
      [|discriminate].
    apply (plane_body_Some _ _ _ _ _ _ _ _ _ _ _ [] N) in E0;
      [|reflexivity|reflexivity].
    destruct E0 as (b0 & Hb0 & F0 & Hheap1 & Hdata1).
    destruct (plane_body _ _ _ _ _ _ _ _ 1 _) as [st2|] eqn:E1;
      [|discriminate].
    apply (plane_body_Some _ _ _ _ _ _ _ _ _ _ _ _ _ Hheap1 Hdata1) in E1.
    destruct E1 as (b1 & Hb1 & F1 & Hheap2 & Hdata2).
    destruct (plane_body _ _ _ _ _ _ _ _ 2 _) as [st3|] eqn:E2;
      [|discriminate].
    apply (plane_body_Some _ _ _ _ _ _ _ _ _ _ _ _ _ Hheap2 Hdata2) in E2.
    destruct E2 as (b2 & Hb2 & F2 & _ & _).
    intros _. exists b0, b1, b2. repeat split; try assumption.
    pose proof (wrap_range (packed_count width height)) as [Hr _].
    unfold len, N in *. lia. }
  destruct Hplanes as (b0 & b1 & b2 & Hb0 & Hb1 & Hb2 & Hfit).
  pose proof (plane_bytes_length _ _ _ _ _ Hw Hh Hb0) as L0.
  pose proof (plane_bytes_length _ _ _ _ _ Hw Hh Hb1) as L1.
  pose proof (plane_bytes_length _ _ _ _ _ Hw Hh Hb2) as L2.
  cbn [Z.eqb] in L0, L1, L2.
  assert (Hlt : packed_count width height < Word32.modulus).
  { pose proof (wrap_range (packed_count width height)) as [_ Hr].
    unfold packed_count in *. lia. }
  split; [assumption|]. split; [assumption|].
  exists frame, b0, b1, b2. repeat split; try assumption.
  rewrite (render_ok _ _ _ _ _ _ _ _ Hfmt Hmap Hsize Hw Hh Hlt Hb0 Hb1 Hb2)
    in Hret.
  now injection Hret as <-.
Qed.

(** When the packed count does not fit 32 bits, the scratch buffer is too
    small for the rows copied into it. *)
Lemma render_overflow checksumsink buffer frame width height :
  supported (info_format (vinfo checksumsink)) ->
  buffer_frame buffer = Some frame ->
  frame_size checksumsink buffer = (width, height) ->
  0 <= width -> 0 <= height ->
  Word32.modulus <= packed_count width height ->
  fst (gst_checksum_sink_render checksumsink buffer) = Undefined.
Proof.
  intros Hfmt Hmap Hsize Hw Hh Hbig.
  destruct (render_mapped_cases _ _ _ Hfmt Hmap) as [H | [tr H]];
    [assumption|].
  apply (render_returned_inv _ _ _ _ _ Hsize Hw Hh) in H as (_ & Hlt & _).
  lia.
Qed.

(* ================================================================== *)
(** ** The checksum engine on the standard test message "abc" *)

Example md5_abc :
  g_compute_checksum_for_data G_CHECKSUM_MD5 [x61; x62; x63]
  = "900150983cd24fb0d6963f7d28e17f72"%string.
Proof. vm_compute. reflexivity. Qed.

Example sha1_abc :
  g_compute_checksum_for_data G_CHECKSUM_SHA1 [x61; x62; x63]
  = "a9993e364706816aba3e25717850c26c9cd0d89d"%string.
Proof. vm_compute. reflexivity. Qed.

Example sha256_abc :
  g_compute_checksum_for_data G_CHECKSUM_SHA256 [x61; x62; x63]
  = ("ba7816bf8f01cfea414140de5dae2223"
     ++ "b00361a396177a9cb410ff61f20015ad")%string.
Proof. vm_compute. reflexivity. Qed.

(* ================================================================== *)
(** ** Lemmas on the text of a digest *)

Lemma hex_digit_is_hex n : is_hex (Digest.hex_digit n) = true.
Proof.
  unfold Digest.hex_digit.
  destruct (Z.to_nat n) as [|k]; [reflexivity|].
  do 15 (destruct k as [|k]; [reflexivity|]).
  destruct k; reflexivity.
Qed.

Lemma hex_string_is_hex l : string_forall is_hex (Digest.hex_string l) = true.
Proof.
  induction l as [|b l IH]; [reflexivity|].
  cbn [Digest.hex_string string_forall].
  now rewrite !hex_digit_is_hex, IH.
Qed.

Lemma hex_string_length l :
  String.length (Digest.hex_string l) = (2 * List.length l)%nat.
Proof.
  induction l as [|b l IH]; [reflexivity|].
  cbn [Digest.hex_string String.length List.length]; rewrite IH; lia.
Qed.

Lemma sha256_round_length st kw :
  List.length (Digest.SHA256.round st kw) = List.length st.
Proof.
  unfold Digest.SHA256.round.
  do 9 (destruct st as [|? st]; try reflexivity).
Qed.

Lemma sha256_rounds_length kws : forall st,
  List.length (fold_left Digest.SHA256.round kws st) = List.length st.
Proof.
  induction kws as [|kw kws IH]; intros st; [reflexivity|].
  cbn [fold_left]. now rewrite IH, sha256_round_length.
Qed.

Lemma sha256_add_states_length h : forall s,
  List.length s = List.length h ->
  List.length (Digest.SHA256.add_states h s) = List.length h.
Proof.
  induction h as [|x h IH]; intros [|y s]; simpl; intros H;
    try reflexivity; try discriminate.
  f_equal; apply IH; lia.
Qed.

Lemma sha256_state_length bs : forall h,
  List.length (fold_left Digest.SHA256.compress bs h) = List.length h.
Proof.
  induction bs as [|b bs IH]; intros h; [reflexivity|].
  cbn [fold_left]. rewrite IH. unfold Digest.SHA256.compress.
  apply sha256_add_states_length, sha256_rounds_length.
Qed.

Lemma be_bytes_length n x : List.length (Digest.be_bytes n x) = n.
Proof. induction n; simpl; congruence. Qed.

Lemma le_bytes_length n : forall x, List.length (Digest.le_bytes n x) = n.
Proof. induction n; intros x; simpl; congruence. Qed.

Lemma flat_map_be_length (l : list Z) :
  List.length (flat_map (Digest.be_bytes 4) l) = (4 * List.length l)%nat.
Proof.
  induction l as [|x l IH]; [reflexivity|].
  cbn [flat_map]. rewrite length_app, be_bytes_length, IH. simpl; lia.
Qed.

Lemma digest_length checksum_type data :
  String.length (g_compute_checksum_for_data checksum_type data)
  = (2 * digest_size checksum_type)%nat.
Proof.
  unfold g_compute_checksum_for_data. rewrite hex_string_length. f_equal.
  destruct checksum_type; cbn [digest_size].
  - unfold Digest.MD5.digest.
    destruct (fold_left _ _ _) as [[[h0 h1] h2] h3].
    cbn [flat_map]. rewrite !length_app, !le_bytes_length. reflexivity.
  - unfold Digest.SHA1.digest.
    destruct (fold_left _ _ _) as [[[[h0 h1] h2] h3] h4].
    rewrite flat_map_be_length. reflexivity.
  - unfold Digest.SHA256.digest.
    rewrite flat_map_be_length, sha256_state_length. reflexivity.
Qed.

Lemma checksum_is_digest checksum_type data :
  is_digest checksum_type (g_compute_checksum_for_data checksum_type data).
Proof.
  split; [apply hex_string_is_hex | apply digest_length].
Qed.

Lemma string_forall_app p s t :
  string_forall p (s ++ t) = string_forall p s && string_forall p t.
Proof.
  induction s as [|c s IH]; [reflexivity|].
  cbn [append string_forall]. now rewrite IH, andb_assoc.
Qed.

Lemma string_forall_impl (p q : ascii -> bool) s :
  (forall c, p c = true -> q c = true) ->
  string_forall p s = true -> string_forall q s = true.
Proof.
  intros Hpq. induction s as [|c s IH]; [reflexivity|].
  cbn [string_forall]. intros [Hc Hs]%andb_prop.
  now rewrite (Hpq _ Hc), IH.
Qed.

Lemma is_hex_not_newline c :
  is_hex c = true -> negb (Ascii.eqb c "010") = true.
Proof.
  destruct (Ascii.eqb c "010") eqn:E; [|reflexivity].
  apply Ascii.eqb_eq in E; subst c. discriminate.
Qed.

Lemma is_hex_not_space c :
  is_hex c = true -> Ascii.eqb c " " = false.
Proof.
  destruct (Ascii.eqb c " ") eqn:E; [|reflexivity].
  apply Ascii.eqb_eq in E; subst c. discriminate.
Qed.

(** A piece free of the separator, followed by the separator, is the first
    piece. *)
Lemma split_piece sep d r :
  string_forall (fun c => negb (Ascii.eqb c sep)) d = true ->
  split sep (d ++ String sep r) = d :: split sep r.
Proof.
  induction d as [|c d IH]; cbn [append split string_forall].
  - intros _. now rewrite Ascii.eqb_refl.
  - intros [Hc Hd]%andb_prop. apply negb_true_iff in Hc.
    now rewrite Hc, (IH Hd).
Qed.

Lemma words_digest checksum_type d r :
  is_digest checksum_type d ->
  words (d ++ "  " ++ r) = d :: words r.
Proof.
  intros [Hhex Hlen]. unfold words.
  change ("  " ++ r)%string with (String " " (String " " r)).
  rewrite split_piece.
  2:{ revert Hhex; apply string_forall_impl.
      intros c Hc; now rewrite (is_hex_not_space _ Hc). }
  cbn [filter].
  replace (String.eqb d EmptyString) with false.
  2:{ symmetry; apply String.eqb_neq; intros ->.
      destruct checksum_type; discriminate Hlen. }
  cbn [negb split]. rewrite Ascii.eqb_refl. cbn [filter String.eqb negb].
  reflexivity.
Qed.

(* ================================================================== *)
(** ** The source is looked at through its rows only *)

Lemma copy_rows_congr w s1 s2 (m1 m2 : list byte) : forall h hp data sp1 sp2,
  (forall j, 0 <= j < Z.of_nat h ->
     load m1 (sp1 + j * s1) w = load m2 (sp2 + j * s2) w) ->
  written (copy_rows h w s1 m1 (hp, data, sp1))
  = written (copy_rows h w s2 m2 (hp, data, sp2)).
Proof.
  induction h as [|h IH]; intros hp data sp1 sp2 Hrows; [reflexivity|].
  cbn [copy_rows]. unfold memcpy.
  pose proof (Hrows 0 ltac:(lia)) as H0.
  rewrite !Z.mul_0_l, !Z.add_0_r in H0. rewrite H0.
  destruct (load m2 sp2 w) as [r|]; [|reflexivity].
  destruct (store hp data r) as [hp'|]; [|reflexivity].
  apply IH. intros j Hj.
  specialize (Hrows (j + 1) ltac:(lia)).
  replace (sp1 + s1 + j * s1) with (sp1 + (j + 1) * s1) by lia.
  replace (sp2 + s2 + j * s2) with (sp2 + (j + 1) * s2) by lia.
  exact Hrows.
Qed.

Lemma plane_body_written checksumsink frame width height dp Ysize Usize Vsize
    plane st :
  plane_body checksumsink frame width height dp Ysize Usize Vsize plane st =
  match
    written
      (copy_rows
         (Z.to_nat (snd (get_plane_width_and_height plane width height)))
         (fst (get_plane_width_and_height plane width height))
         (nth (Z.to_nat plane) (frame_stride frame) 0) (frame_mem frame)
         (l_heap st, l_data st, nth (Z.to_nat plane) (frame_data frame) 0))
  with
  | None => None
  | Some (hp, data) =>
      if plane_checksum checksumsink then
        match plane_range (info_format (vinfo checksumsink)) plane dp
                Ysize Usize Vsize with
        | None => None
        | Some (pp, plane_size) =>
            match load_heap hp pp plane_size with
            | None => None
            | Some bytes =>
                Some {| l_heap := hp; l_data := data; l_pp := Some pp;
                        l_trace :=
                          l_trace st
                          ++ [Ev_print
                                (g_compute_checksum_for_data
                                   (checksum_type checksumsink) bytes
                                 ++ "  ")%string] |}
            end
        end
      else
        Some {| l_heap := hp; l_data := data; l_pp := l_pp st;
                l_trace := l_trace st |}
  end.
Proof.
  unfold plane_body.
  destruct (get_plane_width_and_height plane width height) as [w h].
  cbn [fst snd].
  destruct (copy_rows _ _ _ _ _) as [[[hp data] sp]|]; reflexivity.
Qed.

(** Two frames with the same rows in a plane are the same to that plane's
    iteration. *)
Lemma plane_body_congr checksumsink f1 f2 width height dp Ysize Usize Vsize
    plane st :
  (forall j,
     0 <= j < snd (get_plane_width_and_height plane width height) ->
     plane_row f1 plane (fst (get_plane_width_and_height plane width height)) j
     = plane_row f2 plane
         (fst (get_plane_width_and_height plane width height)) j) ->
  plane_body checksumsink f1 width height dp Ysize Usize Vsize plane st =
  plane_body checksumsink f2 width height dp Ysize Usize Vsize plane st.
Proof.
  intros Hrows. rewrite !plane_body_written.
  erewrite copy_rows_congr; [reflexivity|].
  intros j Hj. apply Hrows. lia.
Qed.

Lemma plane_loop_ext (body1 body2 : Z -> locals -> option locals) :
  forall n plane st,
  (forall p st', plane <= p < plane + Z.of_nat n ->
     body1 p st' = body2 p st') ->
  plane_loop body1 n plane st = plane_loop body2 n plane st.
Proof.
  induction n as [|n IH]; intros plane st Hext; [reflexivity|].
  cbn [plane_loop]. rewrite (Hext plane st) by lia.
  destruct (body2 plane st) as [st'|]; [|reflexivity].
  apply IH. intros p st'' Hp. apply Hext. lia.
Qed.

(* ================================================================== *)
(** ** Frames of constant content *)

Lemma Forall_const_repeat {A} (x : A) (l : list A) :
  Forall (eq x) l -> l = repeat x (List.length l).
Proof.
  induction 1 as [|y l Hy _ IH]; [reflexivity|].
  simpl. now rewrite <- Hy, <- IH.
Qed.

Lemma Forall_slice {A} (P : A -> Prop) (l : list A) p n :
  Forall P l -> Forall P (slice l p n).
Proof.
  intros H. unfold slice.
  rewrite <- (firstn_skipn (Z.to_nat p) l) in H.
  apply Forall_app in H as [_ H].
  rewrite <- (firstn_skipn (Z.to_nat n) (skipn (Z.to_nat p) l)) in H.
  now apply Forall_app in H as [H _].
Qed.

Lemma rows_Forall (P : byte -> Prop) h w stride mem :
  Forall P mem ->
  forall sp bs, rows h w stride mem sp = Some bs -> Forall P bs.
Proof.
  intros Hmem. induction h as [|h IH]; cbn [rows]; intros sp bs.
  - intros [= <-]; constructor.
  - destruct (load mem sp w) as [r|] eqn:Hr; [|discriminate].
    destruct (rows h w stride mem (sp + stride)) as [rs|] eqn:Hrs;
      [|discriminate].
    intros [= <-]. apply Forall_app; split; [|now apply (IH _ _ Hrs)].
    apply load_Some in Hr as (_ & _ & _ & _ & ->).
    now apply Forall_slice.
Qed.

Lemma plane_bytes_Forall (P : byte -> Prop) frame width height plane bs :
  Forall P (frame_mem frame) ->
  plane_bytes frame width height plane = Some bs -> Forall P bs.
Proof.
  intros Hmem. unfold plane_bytes.
  destruct (get_plane_width_and_height plane width height) as [w h].
  now apply rows_Forall.
Qed.

(* ================================================================== *)
(** ** What a processed frame prints, allocates and frees *)

Lemma string_app_assoc (s t u : string) :
  ((s ++ t) ++ u = s ++ t ++ u)%string.
Proof.
  induction s as [|c s IH]; [reflexivity|].
  cbn [append]. now rewrite IH.
Qed.

Lemma string_app_nil_r (s : string) : (s ++ "" = s)%string.
Proof.
  induction s as [|c s IH]; [reflexivity|].
  cbn [append]. now rewrite IH.
Qed.

Lemma printed_frame_trace checksumsink size b0 b1 b2 :
  printed (frame_trace checksumsink size b0 b1 b2) =
  let cs := g_compute_checksum_for_data (checksum_type checksumsink) in
  if plane_checksum checksumsink
  then (cs b0 ++ "  " ++ cs b1 ++ "  " ++ cs b2 ++ "  " ++ newline)%string
  else ("FrameChecksum " ++ cs (b0 ++ b1 ++ b2)%list ++ newline)%string.
Proof.
  unfold frame_trace. cbv zeta.
  destruct (plane_checksum checksumsink); cbn [app printed].
  - rewrite !string_app_assoc, string_app_nil_r. reflexivity.
  - rewrite string_app_nil_r. reflexivity.
Qed.

Lemma mallocs_frame_trace checksumsink size b0 b1 b2 :
  mallocs (frame_trace checksumsink size b0 b1 b2) = [size].
Proof. unfold frame_trace. destruct (plane_checksum _); reflexivity. Qed.

Lemma frees_frame_trace checksumsink size b0 b1 b2 :
  frees (frame_trace checksumsink size b0 b1 b2) = [0].
Proof. unfold frame_trace. destruct (plane_checksum _); reflexivity. Qed.

Lemma slice_piece {A} (pre bs post : list A) :
  slice (pre ++ bs ++ post) (len pre) (len bs) = bs.
Proof.
  unfold slice, len. rewrite !Nat2Z.id.
  rewrite skipn_app, skipn_all, Nat.sub_diag. cbn [app skipn].
  rewrite firstn_app, firstn_all, Nat.sub_diag. cbn [firstn].
  apply app_nil_r.
Qed.

Lemma slice_piece_at {A} (l pre bs post : list A) p n :
  l = pre ++ bs ++ post -> p = len pre -> n = len bs -> slice l p n = bs.
Proof. intros -> -> ->; apply slice_piece. Qed.

(** Within 32 bits the rows copied fill the scratch buffer exactly. *)
Lemma scratch_exact_fit width height :
  0 <= width -> 0 <= height ->
  packed_count width height < Word32.modulus ->
  bytes_written width height = snd (packed_sizes width height).
Proof.
  intros Hw Hh Hfit. rewrite (packed_sizes_exact _ _ Hw Hh Hfit).
  unfold bytes_written, plane_size, get_plane_width_and_height, packed_count,
    Word32.div.
  cbn [Z.eqb negb snd]. lia.
Qed.

(* ================================================================== *)
(** ** Plane geometry *)

(** C3: the plane geometry resolver returns [(width, height)] for plane 0
    and the halves rounded down, [(floor (width / 2), floor (height / 2))],
    for every other plane index.  The function is not given the pixel
    format, and the render function calls it the same way for both
    supported formats. *)
Theorem plane_geometry (plane width height : Z) :
  get_plane_width_and_height plane width height
  = (if plane =? 0 then (width, height) else (width / 2, height / 2))
  /\ (let '(w, h) := get_plane_width_and_height plane width height in
      if plane =? 0 then w = width /\ h = height
      else 2 * w <= width < 2 * w + 2 /\ 2 * h <= height < 2 * h + 2).
Proof.
  unfold get_plane_width_and_height, Word32.div.
  destruct (plane =? 0); cbn [negb]; split; try reflexivity; try (split; reflexivity).
  pose proof (Z.div_mod width 2 ltac:(lia)).
  pose proof (Z.mod_pos_bound width 2 ltac:(lia)).
  pose proof (Z.div_mod height 2 ltac:(lia)).
  pose proof (Z.mod_pos_bound height 2 ltac:(lia)).
  lia.
Qed.

(* ================================================================== *)
(** ** Rejected and aborted frames *)

(** C7: when the negotiated format is neither I420 nor YV12 the call
    returns [GST_FLOW_ERROR] at once: the only thing it does is log the
    error; the buffer is not mapped, nothing is allocated and nothing is
    printed. *)
Theorem unsupported_format_rejected (checksumsink : GstChecksumSink)
    (buffer : GstBuffer) :
  info_format (vinfo checksumsink) <> GST_VIDEO_FORMAT_I420 ->
  info_format (vinfo checksumsink) <> GST_VIDEO_FORMAT_YV12 ->
  let o := fst (gst_checksum_sink_render checksumsink buffer) in
  o = Returned GST_FLOW_ERROR [Ev_error unsupported_msg]
  /\ maps (trace_of o) = []
  /\ mallocs (trace_of o) = []
  /\ printed (trace_of o) = EmptyString.
Proof.
  intros H1 H2 o. subst o.
  rewrite render_unsupported by (intros [H | H]; contradiction).
  repeat split.
Qed.

Lemma unsupported_format_rejected_witness :
  let o :=
    fst (gst_checksum_sink_render
           (Sample.plane_sink GST_VIDEO_FORMAT_NV12)
           (Sample.buffer_of Sample.tight_frame)) in
  o = Returned GST_FLOW_ERROR [Ev_error unsupported_msg]
  /\ maps (trace_of o) = []
  /\ mallocs (trace_of o) = []
  /\ printed (trace_of o) = EmptyString.
Proof.
  apply (unsupported_format_rejected
           (Sample.plane_sink GST_VIDEO_FORMAT_NV12)
           (Sample.buffer_of Sample.tight_frame)); discriminate.
Defined.

(** C9: when the buffer of a frame of a supported format cannot be mapped
    for reading, the call logs the failure and aborts
    ([g_assert_not_reached]): it prints no digest, allocates nothing, and
    no later buffer of the stream is rendered. *)
Theorem map_failure_aborts (checksumsink : GstChecksumSink)
    (buffer : GstBuffer) (rest : list GstBuffer) :
  supported (info_format (vinfo checksumsink)) ->
  buffer_frame buffer = None ->
  let o := fst (gst_checksum_sink_render checksumsink buffer) in
  o = Aborted [Ev_frame_map false; Ev_error "Failed to map frame"]
  /\ printed (trace_of o) = EmptyString
  /\ mallocs (trace_of o) = []
  /\ render_stream checksumsink (buffer :: rest) = [o].
Proof.
  intros Hfmt Hmap o. subst o.
  cbn [render_stream].
  rewrite (render_unmapped _ _ Hfmt Hmap).
  repeat split.
Qed.

Lemma map_failure_aborts_witness :
  let o := fst (gst_checksum_sink_render Sample.sink Sample.unmappable) in
  o = Aborted [Ev_frame_map false; Ev_error "Failed to map frame"]
  /\ printed (trace_of o) = EmptyString
  /\ mallocs (trace_of o) = []
  /\ render_stream Sample.sink
       [Sample.unmappable; Sample.buffer_of Sample.zero_frame] = [o].
Proof.
  apply (map_failure_aborts Sample.sink Sample.unmappable
           [Sample.buffer_of Sample.zero_frame]).
  - left; reflexivity.
  - reflexivity.
Defined.

(* ================================================================== *)
(** ** The crop override *)

(** A cropped buffer is rendered as the same buffer without crop metadata
    is by an element negotiated to the size of the crop. *)
Lemma crop_as_negotiated (checksumsink : GstChecksumSink)
    (crop : GstVideoCropMeta) (frame : option GstVideoFrame) :
  Word32.in_range (crop_width crop) ->
  Word32.in_range (crop_height crop) ->
  fst (gst_checksum_sink_render checksumsink
         {| buffer_crop_meta := Some crop; buffer_frame := frame |})
  = fst (gst_checksum_sink_render
           (gst_checksum_sink_set_caps checksumsink
              (Some {| info_format := info_format (vinfo checksumsink);
                       info_width := crop_width crop;
                       info_height := crop_height crop |}))
           {| buffer_crop_meta := None; buffer_frame := frame |}).
Proof.
  intros Hw Hh.
  unfold gst_checksum_sink_render, frame_size, gst_buffer_get_video_crop_meta,
    gst_video_frame_map, gst_checksum_sink_set_caps.
  cbn [buffer_crop_meta buffer_frame vinfo info_format info_width
       info_height checksum_type plane_checksum].
  rewrite !wrap_small by assumption.
  destruct (negb _ && negb _); [reflexivity|].
  destruct (packed_sizes _ _) as [[[Ysize Usize] Vsize] size].
  destruct frame as [frame|]; [|reflexivity].
  rewrite (plane_loop_ext
             (plane_body checksumsink frame (crop_width crop)
                (crop_height crop) 0 Ysize Usize Vsize)
             (plane_body
                {| vinfo :=
                     {| info_format := info_format (vinfo checksumsink);
                        info_width := crop_width crop;
                        info_height := crop_height crop |};
                   checksum_type := checksum_type checksumsink;
                   plane_checksum := plane_checksum checksumsink |}
                frame (crop_width crop) (crop_height crop) 0 Ysize Usize
                Vsize)) by reflexivity.
  destruct (plane_loop _ _ _ _) as [st|]; [|reflexivity].
  destruct (plane_checksum checksumsink); [reflexivity|].
  destruct (load_heap _ _ _); reflexivity.
Qed.

(** C6: the effective width and height of a call are those of the
    buffer's crop metadata when it has some, so that the buffer is rendered
    as by an element negotiated to that size, and the negotiated ones
    otherwise; the call leaves the element, and so the negotiated
    geometry, as it was, so the next buffer of the stream is rendered as if
    the cropped one had not been there. *)
Theorem crop_override_scope (checksumsink : GstChecksumSink)
    (buffer : GstBuffer) :
  (forall crop, buffer_crop_meta buffer = Some crop ->
     frame_size checksumsink buffer = (crop_width crop, crop_height crop))
  /\ (forall crop, buffer_crop_meta buffer = Some crop ->
      Word32.in_range (crop_width crop) ->
      Word32.in_range (crop_height crop) ->
      fst (gst_checksum_sink_render checksumsink buffer)
      = fst (gst_checksum_sink_render
               (gst_checksum_sink_set_caps checksumsink
                  (Some {| info_format := info_format (vinfo checksumsink);
                           info_width := crop_width crop;
                           info_height := crop_height crop |}))
               {| buffer_crop_meta := None;
                  buffer_frame := buffer_frame buffer |}))
  /\ (buffer_crop_meta buffer = None ->
      Word32.in_range (info_width (vinfo checksumsink)) ->
      Word32.in_range (info_height (vinfo checksumsink)) ->
      frame_size checksumsink buffer
      = (info_width (vinfo checksumsink), info_height (vinfo checksumsink)))
  /\ snd (gst_checksum_sink_render checksumsink buffer) = checksumsink
  /\ (forall tr next,
        fst (gst_checksum_sink_render checksumsink buffer)
        = Returned GST_FLOW_OK tr ->
        exists later,
          render_stream checksumsink [buffer; next]
          = Returned GST_FLOW_OK tr
            :: fst (gst_checksum_sink_render checksumsink next) :: later).
Proof.
  repeat split.
  - intros crop Hcrop.
    unfold frame_size, gst_buffer_get_video_crop_meta. now rewrite Hcrop.
  - intros crop Hcrop Hw Hh.
    rewrite <- (crop_as_negotiated _ _ _ Hw Hh).
    destruct buffer as [c f]. cbn [buffer_crop_meta buffer_frame] in *.
    now rewrite Hcrop.
  - intros Hcrop Hw Hh.
    unfold frame_size, gst_buffer_get_video_crop_meta. rewrite Hcrop.
    now rewrite !wrap_small.
  - apply render_sink.
  - intros tr next Hret. cbn [render_stream].
    pose proof (render_sink checksumsink buffer) as Hsink.
    destruct (gst_checksum_sink_render checksumsink buffer) as [o sink'].
    cbn [fst snd] in Hret, Hsink. subst o sink'.
    destruct (gst_checksum_sink_render checksumsink next) as [o' sink''].
    cbn [fst].
    destruct o' as [[|] tr'| tr' |]; eexists; reflexivity.
Qed.

Lemma crop_override_scope_witness :
  frame_size Sample.sink (Sample.cropped Sample.tight_frame) = (2, 2)
  /\ frame_size Sample.sink (Sample.buffer_of Sample.tight_frame) = (4, 4)
  /\ snd (gst_checksum_sink_render Sample.sink
            (Sample.cropped Sample.tight_frame)) = Sample.sink.
Proof.
  pose proof (crop_override_scope Sample.sink
                (Sample.cropped Sample.tight_frame)) as (H1 & _ & _ & H3 & _).
  pose proof (crop_override_scope Sample.sink
                (Sample.buffer_of Sample.tight_frame)) as (_ & _ & H2 & _).
  split; [apply (H1 Sample.crop_2x2); reflexivity|].
  split; [|exact H3].
  apply H2; [reflexivity | | ]; unfold Word32.in_range; simpl;
    split; [discriminate | reflexivity | discriminate | reflexivity].
Defined.

(* ================================================================== *)
(** ** The size of the scratch buffer *)

(** C4 at the failing input, an effective size of 65536x65536: the sizes
    are computed in 32 bits without a check, [Ysize] wraps to 0 and the
    byte count handed to [g_malloc] is 2^31, not
    65536*65536 + 2*(32768*32768) = 6*2^30.  This is the size the element
    negotiated to 65536x65536 computes for a buffer without crop metadata,
    and the size any element computes for a crop of that size. *)
Theorem packed_size_wraps :
  packed_sizes 65536 65536 = (0, 1073741824, 1073741824, 2147483648)
  /\ 65536 * 65536 + 2 * ((65536 / 2) * (65536 / 2)) = 6442450944
  /\ snd (packed_sizes 65536 65536)
     <> 65536 * 65536 + 2 * ((65536 / 2) * (65536 / 2))
  /\ (forall frame,
        frame_size Sample.huge_sink (Sample.buffer_of frame)
        = (65536, 65536))
  /\ (forall checksumsink frame,
        frame_size checksumsink
          (with_crop (Some {| crop_x := 0; crop_y := 0;
                              crop_width := 65536; crop_height := 65536 |})
             frame)
        = (65536, 65536)).
Proof.
  split; [reflexivity|]. split; [reflexivity|].
  split; [vm_compute; discriminate|].
  split; reflexivity.
Qed.

(** Within 32 bits the size is right: whenever
    [width*height + 2*floor(width/2)*floor(height/2)] fits an unsigned
    32-bit integer, it is the packed byte count the call computes, and a
    call that processes its frame allocates the scratch buffer exactly
    once, with exactly that size, and frees that allocation. *)
Theorem scratch_size (checksumsink : GstChecksumSink) (buffer : GstBuffer)
    (width height : Z) :
  buffer_wf buffer ->
  frame_size checksumsink buffer = (width, height) ->
  width * height + 2 * ((width / 2) * (height / 2)) < Word32.modulus ->
  let size := width * height + 2 * ((width / 2) * (height / 2)) in
  snd (packed_sizes width height) = size
  /\ (forall tr,
        fst (gst_checksum_sink_render checksumsink buffer)
        = Returned GST_FLOW_OK tr ->
        mallocs tr = [size] /\ frees tr = [0]).
Proof.
  intros Hwf Hsize Hfit size.
  destruct (frame_size_range _ _ _ _ Hwf Hsize) as [[Hw _] [Hh _]].
  split.
  - now rewrite (packed_sizes_exact _ _ Hw Hh Hfit).
  - intros tr Hret.
    apply (render_returned_inv _ _ _ _ _ Hsize Hw Hh) in Hret
      as (_ & _ & frame & b0 & b1 & b2 & _ & _ & _ & _ & ->).
    split; [apply mallocs_frame_trace | apply frees_frame_trace].
Qed.

Lemma scratch_size_witness :
  snd (packed_sizes 4 4) = 24
  /\ mallocs (trace_of (fst (gst_checksum_sink_render Sample.sink
                               (Sample.buffer_of Sample.padded_frame))))
     = [24].
Proof.
  destruct (scratch_size Sample.sink (Sample.buffer_of Sample.padded_frame)
              4 4) as (H1 & H2).
  - exact I.
  - reflexivity.
  - reflexivity.
  - split; [exact H1|].
    eapply H2. vm_compute. reflexivity.
Defined.

(** C10 at the failing input, a 65536x65536 I420 frame: the three planes
    take 6*2^30 bytes, the scratch buffer is allocated with 2^31, and
    whatever the mapped memory holds the row loop leaves the scratch
    buffer. *)
Theorem scratch_overflow :
  bytes_written 65536 65536 = 6442450944
  /\ snd (packed_sizes 65536 65536) = 2147483648
  /\ forall frame,
       fst (gst_checksum_sink_render Sample.huge_sink
              (Sample.buffer_of frame)) = Undefined.
Proof.
  split; [reflexivity|]. split; [reflexivity|].
  intros frame.
  apply (render_overflow _ _ frame 65536 65536).
  - left; reflexivity.
  - reflexivity.
  - reflexivity.
  - discriminate.
  - discriminate.
  - discriminate.
Qed.

(* ================================================================== *)
(** ** The all-zero 4x4 frame *)

(** C1, as stated, fails: the line printed for the all-zero 4x4 I420 frame
    does not carry the digest ef46db3751d8e999000fc2a06d4f1c8500ab0a82,
    which is not the SHA-1 of 24 zero bytes. *)
Lemma zero_frame_not_ef46 :
  printed (trace_of (fst (gst_checksum_sink_render Sample.sink
                            (Sample.buffer_of Sample.zero_frame))))
  <> ("FrameChecksum ef46db3751d8e999000fc2a06d4f1c8500ab0a82"
      ++ newline)%string.
Proof. vm_compute. discriminate. Qed.

(** C1, amended: for a 4x4 I420 frame whose every byte is zero, whatever
    its strides, SHA-1 and whole-frame mode, the scratch buffer has
    16+4+4 = 24 bytes and the digest printed is the SHA-1 of 24 zero bytes,
    d3399b7262fb56cb9ed053d68db9291c410839c4. *)
Theorem zero_frame_sha1 (buffer : GstBuffer) (frame : GstVideoFrame) :
  buffer_crop_meta buffer = None ->
  buffer_frame buffer = Some frame ->
  Forall (eq x00) (frame_mem frame) ->
  (forall plane, 0 <= plane < 3 -> plane_bytes frame 4 4 plane <> None) ->
  let tr := trace_of (fst (gst_checksum_sink_render Sample.sink buffer)) in
  printed tr = ("FrameChecksum " ++ Sample.sha1_zero24 ++ newline)%string
  /\ Sample.sha1_zero24 = g_compute_checksum_for_data G_CHECKSUM_SHA1 (repeat x00 24)
  /\ mallocs tr = [24].
Proof.
  intros Hcrop Hmap Hzero Hread tr.
  assert (Hplane : forall plane, 0 <= plane < 3 ->
            plane_bytes frame 4 4 plane
            = Some (repeat x00 (if plane =? 0 then 16 else 4))).
  { intros plane Hp. specialize (Hread plane Hp).
    destruct (plane_bytes frame 4 4 plane) as [bs|] eqn:Hbs;
      [|contradiction].
    pose proof (plane_bytes_length frame 4 4 plane bs
                  ltac:(lia) ltac:(lia) Hbs) as L.
    rewrite (Forall_const_repeat x00 bs (plane_bytes_Forall _ _ _ _ _ _
                                           Hzero Hbs)).
    do 2 f_equal. unfold len in L.
    destruct (plane =? 0); simpl in L; lia. }
  assert (Hsize : frame_size Sample.sink buffer = (4, 4)).
  { unfold frame_size, gst_buffer_get_video_crop_meta. now rewrite Hcrop. }
  subst tr.
  rewrite (render_ok Sample.sink buffer frame 4 4 _ _ _
             (or_introl eq_refl) Hmap Hsize ltac:(lia) ltac:(lia)
             ltac:(reflexivity)
             (Hplane 0 ltac:(lia)) (Hplane 1 ltac:(lia))
             (Hplane 2 ltac:(lia))).
  cbn [trace_of]. rewrite printed_frame_trace, mallocs_frame_trace.
  repeat split; vm_compute; reflexivity.
Qed.

Lemma zero_frame_sha1_witness :
  printed (trace_of (fst (gst_checksum_sink_render Sample.sink
                            (Sample.buffer_of Sample.zero_frame))))
  = ("FrameChecksum " ++ Sample.sha1_zero24 ++ newline)%string.
Proof.
  apply (zero_frame_sha1 (Sample.buffer_of Sample.zero_frame)
           Sample.zero_frame).
  - reflexivity.
  - reflexivity.
  - repeat constructor.
  - intros plane Hp.
    assert (H : plane = 0 \/ plane = 1 \/ plane = 2) by lia.
    destruct H as [-> | [-> | ->]]; discriminate.
Defined.

(* ================================================================== *)
(** ** Per-plane digests *)

(** C2: in per-plane mode, for either supported format, the digest printed
    for plane 0, 1, 2 is taken over the bytes [0, Ysize),
    [Ysize, Ysize+Usize), [Ysize+Usize, Ysize+2*Usize) of the scratch
    buffer, with [Ysize = width*height] and
    [Usize = floor(width/2)*floor(height/2)]; that range holds exactly the
    content of that plane, and the ranges are the same for I420 and
    YV12. *)
Theorem per_plane_ranges (checksumsink : GstChecksumSink)
    (buffer : GstBuffer) (width height : Z) (tr : list event) :
  buffer_wf buffer ->
  plane_checksum checksumsink = true ->
  frame_size checksumsink buffer = (width, height) ->
  fst (gst_checksum_sink_render checksumsink buffer)
  = Returned GST_FLOW_OK tr ->
  let Ysize := width * height in
  let Usize := (width / 2) * (height / 2) in
  let format := info_format (vinfo checksumsink) in
  let cs := g_compute_checksum_for_data (checksum_type checksumsink) in
  exists frame b0 b1 b2,
    let packed := b0 ++ b1 ++ b2 in
    buffer_frame buffer = Some frame
    /\ plane_bytes frame width height 0 = Some b0
    /\ plane_bytes frame width height 1 = Some b1
    /\ plane_bytes frame width height 2 = Some b2
    /\ packed_sizes width height = (Ysize, Usize, Usize, Ysize + 2 * Usize)
    /\ plane_range format 0 0 Ysize Usize Usize = Some (0, Ysize)
    /\ plane_range format 1 0 Ysize Usize Usize = Some (Ysize, Usize)
    /\ plane_range format 2 0 Ysize Usize Usize = Some (Ysize + Usize, Usize)
    /\ (forall plane dp,
          plane_range GST_VIDEO_FORMAT_I420 plane dp Ysize Usize Usize
          = plane_range GST_VIDEO_FORMAT_YV12 plane dp Ysize Usize Usize)
    /\ slice packed 0 Ysize = b0
    /\ slice packed Ysize Usize = b1
    /\ slice packed (Ysize + Usize) Usize = b2
    /\ printed tr
       = (cs (slice packed 0 Ysize) ++ "  "
          ++ cs (slice packed Ysize Usize) ++ "  "
          ++ cs (slice packed (Ysize + Usize) Usize) ++ "  "
          ++ newline)%string.
Proof.
  intros Hwf Hmode Hsize Hret Ysize Usize format cs.
  destruct (frame_size_range _ _ _ _ Hwf Hsize) as [[Hw _] [Hh _]].
  apply (render_returned_inv _ _ _ _ _ Hsize Hw Hh) in Hret
    as (Hfmt & Hfit & frame & b0 & b1 & b2 & Hmap & Hb0 & Hb1 & Hb2 & ->).
  pose proof (plane_bytes_length _ _ _ _ _ Hw Hh Hb0) as L0.
  pose proof (plane_bytes_length _ _ _ _ _ Hw Hh Hb1) as L1.
  pose proof (plane_bytes_length _ _ _ _ _ Hw Hh Hb2) as L2.
  cbn [Z.eqb] in L0, L1, L2. fold Ysize in L0. fold Usize in L1, L2.
  destruct (plane_range_supported _ 0 Ysize Usize Hfmt) as (R0 & R1 & R2).
  assert (S0 : slice (b0 ++ b1 ++ b2) 0 Ysize = b0).
  { apply (slice_piece_at _ [] b0 (b1 ++ b2)); auto. }
  assert (S1 : slice (b0 ++ b1 ++ b2) Ysize Usize = b1).
  { apply (slice_piece_at _ b0 b1 b2); auto. }
  assert (S2 : slice (b0 ++ b1 ++ b2) (Ysize + Usize) Usize = b2).
  { apply (slice_piece_at _ (b0 ++ b1) b2 []).
    - now rewrite app_nil_r, <- app_assoc.
    - rewrite len_app; lia.
    - auto. }
  exists frame, b0, b1, b2. cbv zeta.
  repeat match goal with |- _ /\ _ => split end; try assumption.
  - now rewrite (packed_sizes_exact _ _ Hw Hh Hfit).
  - intros plane dp. unfold plane_range. cbn [format_eqb]. reflexivity.
  - rewrite printed_frame_trace, Hmode. cbv zeta.
    now rewrite S0, S1, S2.
Qed.

Lemma per_plane_ranges_witness :
  printed (trace_of (fst (gst_checksum_sink_render
                            (Sample.plane_sink GST_VIDEO_FORMAT_YV12)
                            (Sample.buffer_of Sample.padded_frame))))
  = ("2cc429832452134629f1f6d296ec8aefb4e4d8a9  "
     ++ "47e78f65cec71555114ad348ed78722cbf2effa4  "
     ++ "e8aa8db5c14bfd707f34bc00eadece76009ab409  " ++ newline)%string.
Proof.
  destruct (per_plane_ranges (Sample.plane_sink GST_VIDEO_FORMAT_YV12)
              (Sample.buffer_of Sample.padded_frame) 4 4
              (trace_of (fst (gst_checksum_sink_render
                                (Sample.plane_sink GST_VIDEO_FORMAT_YV12)
                                (Sample.buffer_of Sample.padded_frame)))))
    as (frame & b0 & b1 & b2 & Hmap & Hb0 & Hb1 & Hb2 & _ & _ & _ & _ & _
        & S0 & S1 & S2 & Hprinted).
  - exact I.
  - reflexivity.
  - reflexivity.
  - vm_compute. reflexivity.
  - cbv zeta in S0, S1, S2, Hprinted.
    rewrite S0, S1, S2 in Hprinted.
    injection Hmap as <-.
    vm_compute in Hb0, Hb1, Hb2.
    injection Hb0 as <-. injection Hb1 as <-. injection Hb2 as <-.
    rewrite Hprinted. vm_compute. reflexivity.
Defined.

(* ================================================================== *)
(** ** Stride independence *)

(** C5: two buffers with the same crop metadata whose mapped frames have
    the same bytes in the first [logical_width] bytes of each of the
    [logical_height] rows of each plane are rendered alike by the same
    element, whatever their strides, plane offsets and row padding: the
    calls made and the text printed are the same. *)
Theorem stride_independence (checksumsink : GstChecksumSink)
    (buffer1 buffer2 : GstBuffer) (frame1 frame2 : GstVideoFrame)
    (width height : Z) :
  buffer_crop_meta buffer1 = buffer_crop_meta buffer2 ->
  buffer_frame buffer1 = Some frame1 ->
  buffer_frame buffer2 = Some frame2 ->
  frame_size checksumsink buffer1 = (width, height) ->
  (forall plane j,
     0 <= plane < 3 ->
     0 <= j < snd (get_plane_width_and_height plane width height) ->
     plane_row frame1 plane
       (fst (get_plane_width_and_height plane width height)) j
     = plane_row frame2 plane
         (fst (get_plane_width_and_height plane width height)) j) ->
  gst_checksum_sink_render checksumsink buffer1
  = gst_checksum_sink_render checksumsink buffer2.
Proof.
  intros Hcrop Hmap1 Hmap2 Hsize Hrows.
  assert (Hsize2 : frame_size checksumsink buffer2 = (width, height)).
  { rewrite <- Hsize. unfold frame_size, gst_buffer_get_video_crop_meta.
    now rewrite Hcrop. }
  destruct (supported_dec (info_format (vinfo checksumsink))) as [Hfmt|Hfmt];
    [|now rewrite !render_unsupported].
  unfold gst_checksum_sink_render.
  rewrite Hsize, Hsize2, (supported_check _ Hfmt).
  destruct (packed_sizes width height) as [[[Ysize Usize] Vsize] size].
  unfold gst_video_frame_map. rewrite Hmap1, Hmap2.
  rewrite (supported_n_planes _ Hfmt).
  rewrite (plane_loop_ext
             (plane_body checksumsink frame1 width height 0 Ysize Usize Vsize)
             (plane_body checksumsink frame2 width height 0 Ysize Usize
                Vsize)); [reflexivity|].
  intros p st Hp. apply plane_body_congr.
  intros j Hj. apply Hrows; [|assumption].
  change (Z.of_nat (Z.to_nat 3)) with 3 in Hp. lia.
Qed.

Lemma stride_independence_witness :
  gst_checksum_sink_render Sample.sink (Sample.buffer_of Sample.tight_frame)
  = gst_checksum_sink_render Sample.sink
      (Sample.buffer_of Sample.padded_frame).
Proof.
  apply (stride_independence Sample.sink
           (Sample.buffer_of Sample.tight_frame)
           (Sample.buffer_of Sample.padded_frame)
           Sample.tight_frame Sample.padded_frame 4 4).
  - reflexivity.
  - reflexivity.
  - reflexivity.
  - reflexivity.
  - intros plane j Hp.
    assert (H : plane = 0 \/ plane = 1 \/ plane = 2) by lia.
    destruct H as [-> | [-> | ->]]; cbn; intros Hj.
    + assert (H : j = 0 \/ j = 1 \/ j = 2 \/ j = 3) by lia.
      destruct H as [-> | [-> | [-> | ->]]]; reflexivity.
    + assert (H : j = 0 \/ j = 1) by lia.
      destruct H as [-> | ->]; reflexivity.
    + assert (H : j = 0 \/ j = 1) by lia.
      destruct H as [-> | ->]; reflexivity.
Defined.

(* ================================================================== *)
(** ** One line per frame *)

Lemma split_no_sep sep d :
  string_forall (fun c => negb (Ascii.eqb c sep)) d = true ->
  split sep d = [d].
Proof.
  induction d as [|c d IH]; cbn [split string_forall]; [reflexivity|].
  intros [Hc Hd]%andb_prop. apply negb_true_iff in Hc.
  now rewrite Hc, (IH Hd).
Qed.

Lemma digest_no_space checksum_type d :
  is_digest checksum_type d ->
  string_forall (fun c => negb (Ascii.eqb c " ")) d = true.
Proof.
  intros [Hhex _]. revert Hhex. apply string_forall_impl.
  intros c Hc. now rewrite (is_hex_not_space _ Hc).
Qed.

Lemma digest_no_newline checksum_type d :
  is_digest checksum_type d -> no_newline d.
Proof.
  intros [Hhex _]. revert Hhex. apply string_forall_impl.
  apply is_hex_not_newline.
Qed.

Lemma digest_nonempty checksum_type d :
  is_digest checksum_type d -> String.eqb d EmptyString = false.
Proof.
  intros [_ Hlen]. apply String.eqb_neq. intros ->.
  destruct checksum_type; discriminate Hlen.
Qed.

(** C8: a call that processes its frame prints exactly one line, ended by
    its only newline.  In per-plane mode the line is the digests of the
    three planes in plane order, each followed by two spaces, so that its
    space-separated words are these digests.  In whole-frame mode the line
    is [FrameChecksum], one space and the digest of the frame.  The mode
    decides which of the two it is. *)
Theorem one_line_per_frame (checksumsink : GstChecksumSink)
    (buffer : GstBuffer) (tr : list event) :
  buffer_wf buffer ->
  fst (gst_checksum_sink_render checksumsink buffer)
  = Returned GST_FLOW_OK tr ->
  exists line,
    printed tr = (line ++ newline)%string
    /\ no_newline line
    /\ if plane_checksum checksumsink
       then exists d0 d1 d2,
           is_digest (checksum_type checksumsink) d0
           /\ is_digest (checksum_type checksumsink) d1
           /\ is_digest (checksum_type checksumsink) d2
           /\ line = (d0 ++ "  " ++ d1 ++ "  " ++ d2 ++ "  ")%string
           /\ words line = [d0; d1; d2]
       else exists d,
           is_digest (checksum_type checksumsink) d
           /\ line = ("FrameChecksum " ++ d)%string
           /\ words line = ["FrameChecksum"%string; d].
Proof.
  intros Hwf Hret.
  destruct (frame_size checksumsink buffer) as [width height] eqn:Hsize.
  destruct (frame_size_range _ _ _ _ Hwf Hsize) as [[Hw _] [Hh _]].
  pose proof (render_returned_inv checksumsink buffer width height tr
                Hsize Hw Hh Hret)
    as (_ & _ & frame & b0 & b1 & b2 & _ & _ & _ & _ & Htr).
  rewrite Htr, printed_frame_trace. cbv zeta.
  set (cs := g_compute_checksum_for_data (checksum_type checksumsink)).
  assert (Hd : forall bs, is_digest (checksum_type checksumsink) (cs bs))
    by (intros bs; apply checksum_is_digest).
  destruct (plane_checksum checksumsink).
  - exists (cs b0 ++ "  " ++ cs b1 ++ "  " ++ cs b2 ++ "  ")%string.
    split; [|split].
    + now rewrite !string_app_assoc.
    + unfold no_newline. rewrite !string_forall_app.
      rewrite (digest_no_newline _ _ (Hd b0)), (digest_no_newline _ _ (Hd b1)),
        (digest_no_newline _ _ (Hd b2)).
      reflexivity.
    + exists (cs b0), (cs b1), (cs b2).
      repeat split; try apply Hd.
      rewrite (words_digest _ _ _ (Hd b0)), (words_digest _ _ _ (Hd b1)).
      replace (cs b2 ++ "  ")%string with (cs b2 ++ "  " ++ "")%string
        by reflexivity.
      now rewrite (words_digest _ _ _ (Hd b2)).
  - exists ("FrameChecksum " ++ cs (b0 ++ b1 ++ b2)%list)%string.
    split; [|split].
    + now rewrite !string_app_assoc.
    + unfold no_newline. rewrite string_forall_app.
      rewrite (digest_no_newline _ _ (Hd _)). reflexivity.
    + exists (cs (b0 ++ b1 ++ b2)%list).
      repeat split; try apply Hd.
      unfold words.
      change ("FrameChecksum " ++ cs (b0 ++ b1 ++ b2)%list)%string
        with ("FrameChecksum" ++ String " " (cs (b0 ++ b1 ++ b2)%list))%string.
      rewrite split_piece by reflexivity.
      rewrite (split_no_sep _ _ (digest_no_space _ _ (Hd _))).
      cbn [filter]. rewrite (digest_nonempty _ _ (Hd _)). reflexivity.
Qed.

Lemma one_line_per_frame_witness :
  exists line,
    printed (trace_of (fst (gst_checksum_sink_render
                              (Sample.plane_sink GST_VIDEO_FORMAT_I420)
                              (Sample.cropped Sample.padded_frame))))
    = (line ++ newline)%string
    /\ no_newline line.
Proof.
  destruct (one_line_per_frame (Sample.plane_sink GST_VIDEO_FORMAT_I420)
              (Sample.cropped Sample.padded_frame)
              (trace_of (fst (gst_checksum_sink_render
                                (Sample.plane_sink GST_VIDEO_FORMAT_I420)
                                (Sample.cropped Sample.padded_frame)))))
    as (line & Hline & Hnl & _).
  - split; split; try discriminate; reflexivity.
  - vm_compute. reflexivity.
  - exists line. split; assumption.
Defined.

(* ================================================================== *)
(** ** Which frames are processed *)

(** The render function on a mapped frame of a supported format, as a
    function of the content of the three planes. *)
Lemma render_frame_eq checksumsink buffer frame width height :
  supported (info_format (vinfo checksumsink)) ->
  buffer_frame buffer = Some frame ->
  frame_size checksumsink buffer = (width, height) ->
  0 <= width -> 0 <= height ->
  fst (gst_checksum_sink_render checksumsink buffer) =
  match plane_bytes frame width height 0, plane_bytes frame width height 1,
        plane_bytes frame width height 2 with
  | Some b0, Some b1, Some b2 =>
      if packed_count width height <? Word32.modulus
      then Returned GST_FLOW_OK
             (frame_trace checksumsink (packed_count width height) b0 b1 b2)
      else Undefined
  | _, _, _ => Undefined
  end.
Proof.
  intros Hfmt Hmap Hsize Hw Hh.
  destruct (render_mapped_cases _ _ _ Hfmt Hmap) as [Hu | [tr Hret]].
  - rewrite Hu.
    destruct (plane_bytes frame width height 0) as [b0|] eqn:Hb0;
      [|reflexivity].
    destruct (plane_bytes frame width height 1) as [b1|] eqn:Hb1;
      [|reflexivity].
    destruct (plane_bytes frame width height 2) as [b2|] eqn:Hb2;
      [|reflexivity].
    destruct (packed_count width height <? Word32.modulus) eqn:Hfit;
      [|reflexivity].
    apply Z.ltb_lt in Hfit.
    rewrite (render_ok _ _ _ _ _ _ _ _ Hfmt Hmap Hsize Hw Hh Hfit
               Hb0 Hb1 Hb2) in Hu.
    discriminate Hu.
  - rewrite Hret.
    destruct (render_returned_inv _ _ _ _ _ Hsize Hw Hh Hret)
      as (_ & Hfit & frame' & b0 & b1 & b2 & Hmap' & Hb0 & Hb1 & Hb2 & ->).
    rewrite Hmap in Hmap'. injection Hmap' as <-.
    rewrite Hb0, Hb1, Hb2.
    apply Z.ltb_lt in Hfit. now rewrite Hfit.
Qed.

Lemma rows_readable h w stride mem : forall sp,
  rows h w stride mem sp <> None <->
  (forall j, 0 <= j < Z.of_nat h -> load mem (sp + j * stride) w <> None).
Proof.
  induction h as [|h IH]; intros sp; cbn [rows].
  - split; [intros _ j Hj; lia | discriminate].
  - split.
    + intros Hrows j Hj.
      destruct (load mem sp w) as [r|] eqn:Hr; [|contradiction].
      destruct (rows h w stride mem (sp + stride)) as [rs|] eqn:Hrs;
        [|contradiction].
      assert (Hcase : j = 0 \/ 0 <= j - 1 < Z.of_nat h) by lia.
      destruct Hcase as [-> | Hj'].
      * rewrite Z.mul_0_l, Z.add_0_r, Hr. discriminate.
      * assert (Htail : rows h w stride mem (sp + stride) <> None)
          by (rewrite Hrs; discriminate).
        pose proof (proj1 (IH _) Htail (j - 1) Hj') as H.
        now replace (sp + stride + (j - 1) * stride)
          with (sp + j * stride) in H by lia.
    + intros Hall.
      pose proof (Hall 0 ltac:(lia)) as H0.
      rewrite Z.mul_0_l, Z.add_0_r in H0.
      destruct (load mem sp w) as [r|]; [|contradiction].
      assert (Htail : rows h w stride mem (sp + stride) <> None).
      { apply IH. intros j Hj.
        replace (sp + stride + j * stride) with (sp + (j + 1) * stride)
          by lia.
        apply Hall. lia. }
      destruct (rows h w stride mem (sp + stride)); [discriminate|].
      contradiction.
Qed.

Lemma plane_bytes_readable frame width height plane :
  plane_bytes frame width height plane <> None <->
  (forall j,
     0 <= j < snd (get_plane_width_and_height plane width height) ->
     plane_row frame plane
       (fst (get_plane_width_and_height plane width height)) j <> None).
Proof.
  unfold plane_bytes, plane_row.
  destruct (get_plane_width_and_height plane width height) as [w h].
  cbn [fst snd]. rewrite rows_readable.
  split; intros H j Hj; apply H; lia.
Qed.

Lemma readable_planes frame width height :
  readable frame width height <->
  plane_bytes frame width height 0 <> None
  /\ plane_bytes frame width height 1 <> None
  /\ plane_bytes frame width height 2 <> None.
Proof.
  rewrite !plane_bytes_readable. unfold readable. split.
  - intros H. repeat split; intros j Hj; apply H; lia || assumption.
  - intros (H0 & H1 & H2) plane j Hp Hj.
    assert (Hcase : plane = 0 \/ plane = 1 \/ plane = 2) by lia.
    destruct Hcase as [-> | [-> | ->]]; auto.
Qed.

(** X3: a call processes its frame exactly when the format is supported,
    the buffer can be mapped, every row of every plane of the effective
    size lies inside the mapped memory, and the packed byte count fits 32
    bits. *)
Theorem processed_iff (checksumsink : GstChecksumSink) (buffer : GstBuffer)
    (width height : Z) :
  buffer_wf buffer ->
  frame_size checksumsink buffer = (width, height) ->
  (exists tr,
     fst (gst_checksum_sink_render checksumsink buffer)
     = Returned GST_FLOW_OK tr)
  <->
  (supported (info_format (vinfo checksumsink))
   /\ packed_count width height < Word32.modulus
   /\ exists frame,
        buffer_frame buffer = Some frame /\ readable frame width height).
Proof.
  intros Hwf Hsize.
  destruct (frame_size_range _ _ _ _ Hwf Hsize) as [[Hw _] [Hh _]].
  split.
  - intros [tr Hret].
    destruct (render_returned_inv _ _ _ _ _ Hsize Hw Hh Hret)
      as (Hfmt & Hfit & frame & b0 & b1 & b2 & Hmap & Hb0 & Hb1 & Hb2 & _).
    repeat split; try assumption.
    exists frame. split; [assumption|].
    apply readable_planes. rewrite Hb0, Hb1, Hb2.
    repeat split; discriminate.
  - intros (Hfmt & Hfit & frame & Hmap & Hread).
    apply readable_planes in Hread as (H0 & H1 & H2).
    rewrite (render_frame_eq _ _ _ _ _ Hfmt Hmap Hsize Hw Hh).
    destruct (plane_bytes frame width height 0); [|contradiction].
    destruct (plane_bytes frame width height 1); [|contradiction].
    destruct (plane_bytes frame width height 2); [|contradiction].
    apply Z.ltb_lt in Hfit. rewrite Hfit. eexists; reflexivity.
Qed.

Lemma processed_iff_witness :
  exists tr,
    fst (gst_checksum_sink_render Sample.sink
           (Sample.cropped Sample.padded_frame))
    = Returned GST_FLOW_OK tr.
Proof.
  apply (processed_iff Sample.sink (Sample.cropped Sample.padded_frame) 2 2).
  - split; split; try discriminate; reflexivity.
  - reflexivity.
  - split; [left; reflexivity|]. split; [reflexivity|].
    exists Sample.padded_frame. split; [reflexivity|].
    apply readable_planes. repeat split; discriminate.
Defined.

(** X4: the effective size is not checked against the mapped memory nor
    against 32 bits: on a mapped frame of a supported format, a row that
    reaches outside the mapped memory, or a packed byte count of 2^32 or
    more, makes the behaviour of the call undefined. *)
Theorem unprocessable_is_undefined (checksumsink : GstChecksumSink)
    (buffer : GstBuffer) (frame : GstVideoFrame) (width height : Z) :
  buffer_wf buffer ->
  supported (info_format (vinfo checksumsink)) ->
  buffer_frame buffer = Some frame ->
  frame_size checksumsink buffer = (width, height) ->
  (exists plane j,
     0 <= plane < 3
     /\ 0 <= j < snd (get_plane_width_and_height plane width height)
     /\ plane_row frame plane
          (fst (get_plane_width_and_height plane width height)) j = None)
  \/ Word32.modulus <= packed_count width height ->
  fst (gst_checksum_sink_render checksumsink buffer) = Undefined.
Proof.
  intros Hwf Hfmt Hmap Hsize Hbad.
  destruct (frame_size_range _ _ _ _ Hwf Hsize) as [[Hw _] [Hh _]].
  destruct Hbad as [(plane & j & Hp & Hj & Hrow) | Hbig];
    [|now apply (render_overflow _ _ frame width height)].
  rewrite (render_frame_eq _ _ _ _ _ Hfmt Hmap Hsize Hw Hh).
  assert (Hnone : plane_bytes frame width height plane = None).
  { destruct (plane_bytes frame width height plane) eqn:Hb; [|reflexivity].
    exfalso.
    assert (Hsome : plane_bytes frame width height plane <> None)
      by (rewrite Hb; discriminate).
    exact (proj1 (plane_bytes_readable _ _ _ _) Hsome j Hj Hrow). }
  assert (Hcase : plane = 0 \/ plane = 1 \/ plane = 2) by lia.
  destruct Hcase as [-> | [-> | ->]]; rewrite Hnone.
  - reflexivity.
  - destruct (plane_bytes frame width height 0); reflexivity.
  - destruct (plane_bytes frame width height 0); [|reflexivity].
    destruct (plane_bytes frame width height 1); reflexivity.
Qed.

Lemma unprocessable_is_undefined_witness :
  fst (gst_checksum_sink_render Sample.sink
         (with_crop (Some {| crop_x := 0; crop_y := 0;
                             crop_width := 8; crop_height := 4 |})
            Sample.tight_frame))
  = Undefined.
Proof.
  apply (unprocessable_is_undefined Sample.sink _ Sample.tight_frame 8 4).
  - split; split; try discriminate; reflexivity.
  - left; reflexivity.
  - reflexivity.
  - reflexivity.
  - left. exists 2, 1. repeat split; try discriminate; reflexivity.
Defined.

(* ================================================================== *)
(** ** What the format, the crop offset, the mode and the algorithm change *)

Lemma plane_range_formats plane dp Ysize Usize :
  plane_range GST_VIDEO_FORMAT_I420 plane dp Ysize Usize Usize
  = plane_range GST_VIDEO_FORMAT_YV12 plane dp Ysize Usize Usize.
Proof. unfold plane_range. cbn [format_eqb]. reflexivity. Qed.

(** X1: the element does not tell I420 from YV12: negotiated to the same
    size in either format, it does the same on every buffer; in
    particular the per-plane digests come in the order of the plane
    indices for both. *)
Theorem format_blind (checksumsink : GstChecksumSink) (buffer : GstBuffer)
    (width height : Z) :
  fst (gst_checksum_sink_render
         (gst_checksum_sink_set_caps checksumsink
            (Some {| info_format := GST_VIDEO_FORMAT_I420;
                     info_width := width; info_height := height |}))
         buffer)
  = fst (gst_checksum_sink_render
           (gst_checksum_sink_set_caps checksumsink
              (Some {| info_format := GST_VIDEO_FORMAT_YV12;
                       info_width := width; info_height := height |}))
           buffer).
Proof.
  unfold gst_checksum_sink_render, frame_size, gst_checksum_sink_set_caps,
    gst_buffer_get_video_crop_meta, gst_video_frame_map.
  cbn [vinfo info_format info_width info_height checksum_type plane_checksum
       format_eqb negb andb n_planes_of].
  destruct (buffer_crop_meta buffer) as [crop|];
    rewrite packed_sizes_wrap;
    (destruct (buffer_frame buffer) as [frame|]; [|reflexivity]);
    match goal with
    | |- fst match plane_loop ?b1 ?n ?p ?st with _ => _ end = _ =>
        match goal with
        | |- _ = fst match plane_loop ?b2 _ _ _ with _ => _ end =>
            rewrite (plane_loop_ext b1 b2 n p st);
            [ destruct (plane_loop b2 n p st) as [st'|]; [|reflexivity];
              destruct (plane_checksum checksumsink); [reflexivity|];
              destruct (load_heap _ _ _); reflexivity
            | ]
        end
    end;
    intros p st _; unfold plane_body;
    cbn [vinfo info_format checksum_type plane_checksum];
    now rewrite plane_range_formats.
Qed.

Lemma rows_from h w stride mem : forall k sp bs,
  rows h w stride mem sp = Some bs ->
  bs = flat_map
         (fun j => slice mem (sp + (Z.of_nat j - Z.of_nat k) * stride) w)
         (seq k h).
Proof.
  induction h as [|h IH]; intros k sp bs; cbn [rows seq flat_map].
  - now intros [= <-].
  - destruct (load mem sp w) as [r|] eqn:Hr; [|discriminate].
    destruct (rows h w stride mem (sp + stride)) as [rs|] eqn:Hrs;
      [|discriminate].
    intros [= <-].
    apply load_Some in Hr as (_ & _ & _ & _ & ->).
    rewrite (IH (S k) _ _ Hrs).
    replace (sp + (Z.of_nat k - Z.of_nat k) * stride) with sp by lia.
    f_equal. apply flat_map_ext. intros j.
    f_equal. lia.
Qed.

Lemma plane_bytes_rows_at frame width height plane bs :
  0 <= plane ->
  plane_bytes frame width height plane = Some bs ->
  bs = rows_at frame (Z.to_nat plane)
         (fst (get_plane_width_and_height plane width height))
         (snd (get_plane_width_and_height plane width height)).
Proof.
  intros Hp. unfold plane_bytes, rows_at.
  destruct (get_plane_width_and_height plane width height) as [w h].
  cbn [fst snd]. intros H%(rows_from _ _ _ _ 0%nat). rewrite H.
  apply flat_map_ext. intros j. f_equal. lia.
Qed.

(** X2: of the crop metadata only the width and the height are used: two
    crops of the same size at different offsets of the same buffer are
    rendered alike, and what a processed cropped buffer is digested over
    are the rows read from the first byte of each plane on, row [j] of
    plane [p] starting at [frame.data[p] + j * stride[p]], whatever the
    crop's [x] and [y]. *)
Theorem crop_offset_ignored (checksumsink : GstChecksumSink)
    (crop1 crop2 : GstVideoCropMeta) (frame : option GstVideoFrame) :
  crop_width crop1 = crop_width crop2 ->
  crop_height crop1 = crop_height crop2 ->
  gst_checksum_sink_render checksumsink
    {| buffer_crop_meta := Some crop1; buffer_frame := frame |}
  = gst_checksum_sink_render checksumsink
      {| buffer_crop_meta := Some crop2; buffer_frame := frame |}
  /\ (forall mapped tr,
        frame = Some mapped ->
        Word32.in_range (crop_width crop1) ->
        Word32.in_range (crop_height crop1) ->
        fst (gst_checksum_sink_render checksumsink
               {| buffer_crop_meta := Some crop1; buffer_frame := frame |})
        = Returned GST_FLOW_OK tr ->
        let w := crop_width crop1 in
        let h := crop_height crop1 in
        tr = frame_trace checksumsink (packed_count w h)
               (rows_at mapped 0 w h)
               (rows_at mapped 1 (w / 2) (h / 2))
               (rows_at mapped 2 (w / 2) (h / 2))).
Proof.
  intros Hw Hh. split.
  - unfold gst_checksum_sink_render, frame_size,
      gst_buffer_get_video_crop_meta, gst_video_frame_map.
    cbn [buffer_crop_meta buffer_frame].
    now rewrite Hw, Hh.
  - intros mapped tr -> [Hw0 _] [Hh0 _] Hret w h.
    destruct (render_returned_inv checksumsink
                {| buffer_crop_meta := Some crop1;
                   buffer_frame := Some mapped |} w h tr
                eq_refl Hw0 Hh0 Hret)
      as (_ & _ & frame' & b0 & b1 & b2 & Hmap & Hb0 & Hb1 & Hb2 & ->).
    cbn [buffer_frame] in Hmap. injection Hmap as <-.
    apply plane_bytes_rows_at in Hb0, Hb1, Hb2; try lia.
    now rewrite Hb0, Hb1, Hb2.
Qed.

Lemma crop_offset_ignored_witness :
  gst_checksum_sink_render Sample.sink (Sample.cropped Sample.tight_frame)
  = gst_checksum_sink_render Sample.sink
      (with_crop (Some {| crop_x := 2; crop_y := 1;
                          crop_width := 2; crop_height := 2 |})
         Sample.tight_frame)
  /\ printed (trace_of (fst (gst_checksum_sink_render Sample.sink
                               (with_crop
                                  (Some {| crop_x := 2; crop_y := 1;
                                           crop_width := 2;
                                           crop_height := 2 |})
                                  Sample.tight_frame))))
     = ("FrameChecksum "
        ++ g_compute_checksum_for_data G_CHECKSUM_SHA1
             [x01; x02; x05; x06; x11; x15]
        ++ newline)%string.
Proof.
  destruct (crop_offset_ignored Sample.sink Sample.crop_2x2
              {| crop_x := 2; crop_y := 1;
                 crop_width := 2; crop_height := 2 |}
              (Some Sample.tight_frame) eq_refl eq_refl) as [H _].
  destruct (crop_offset_ignored Sample.sink
              {| crop_x := 2; crop_y := 1;
                 crop_width := 2; crop_height := 2 |}
              Sample.crop_2x2
              (Some Sample.tight_frame) eq_refl eq_refl) as [_ H2].
  split; [exact H|].
  rewrite (H2 Sample.tight_frame _ eq_refl) .
  - vm_compute. reflexivity.
  - split; [discriminate | reflexivity].
  - split; [discriminate | reflexivity].
  - vm_compute. reflexivity.
Defined.



(* ================================================================== *)
(** ** Resources *)

(** X6: a call that returns or aborts has released what it acquired.  A
    processed frame was mapped once and unmapped once, its scratch buffer
    allocated once and freed once through the pointer [g_malloc] returned,
    free and unmap being the last two calls; a rejected frame, and a frame
    that could not be mapped, had nothing mapped, allocated or freed. *)
Theorem resources_balanced (checksumsink : GstChecksumSink)
    (buffer : GstBuffer) :
  buffer_wf buffer ->
  match fst (gst_checksum_sink_render checksumsink buffer) with
  | Returned GST_FLOW_OK tr =>
      maps tr = [true] /\ unmaps tr = 1%nat
      /\ List.length (mallocs tr) = 1%nat /\ frees tr = [0]
      /\ exists before, tr = before ++ [Ev_free 0; Ev_frame_unmap]
  | Returned GST_FLOW_ERROR tr =>
      maps tr = [] /\ unmaps tr = 0%nat /\ mallocs tr = [] /\ frees tr = []
  | Aborted tr =>
      maps tr = [false] /\ unmaps tr = 0%nat
      /\ mallocs tr = [] /\ frees tr = []
  | Undefined => True
  end.
Proof.
  intros Hwf.
  destruct (supported_dec (info_format (vinfo checksumsink))) as [Hfmt|Hfmt];
    [|rewrite (render_unsupported _ _ Hfmt); repeat split].
  destruct (buffer_frame buffer) as [frame|] eqn:Hmap;
    [|rewrite (render_unmapped _ _ Hfmt Hmap); repeat split].
  destruct (render_mapped_cases _ _ _ Hfmt Hmap) as [-> | [tr Hret]];
    [exact I|].
  rewrite Hret.
  destruct (frame_size checksumsink buffer) as [width height] eqn:Hsize.
  destruct (frame_size_range _ _ _ _ Hwf Hsize) as [[Hw _] [Hh _]].
  destruct (render_returned_inv _ _ _ _ _ Hsize Hw Hh Hret)
    as (_ & _ & _ & b0 & b1 & b2 & _ & _ & _ & _ & ->).
  unfold frame_trace.
  destruct (plane_checksum checksumsink); repeat split;
    eexists ([_; _] ++ _); rewrite <- app_assoc; reflexivity.
Qed.

Lemma resources_balanced_witness :
  frees (trace_of (fst (gst_checksum_sink_render
                          (Sample.plane_sink GST_VIDEO_FORMAT_YV12)
                          (Sample.cropped Sample.padded_frame)))) = [0].
Proof.
  pose proof (resources_balanced (Sample.plane_sink GST_VIDEO_FORMAT_YV12)
                (Sample.cropped Sample.padded_frame)) as H.
  assert (Hwf : buffer_wf (Sample.cropped Sample.padded_frame))
    by (split; split; try discriminate; reflexivity).
  specialize (H Hwf).
  destruct (fst (gst_checksum_sink_render
                   (Sample.plane_sink GST_VIDEO_FORMAT_YV12)
                   (Sample.cropped Sample.padded_frame)))
    as [[|] tr | tr |] eqn:E; try (vm_compute in E; discriminate E).
  cbn [trace_of]. apply H.
Defined.

(* ================================================================== *)
(** ** Properties, caps and the printed line *)

Lemma string_length_app (s t : string) :
  String.length (s ++ t) = (String.length s + String.length t)%nat.
Proof.
  induction s as [|c s IH]; [reflexivity|].
  cbn [append String.length]. now rewrite IH.
Qed.

(** X7: the length of the line a processed frame prints is fixed by the
    two properties: with the algorithm set to one of digest size [n]
    bytes, three times [2n + 2] characters and the newline in per-plane
    mode, and [FrameChecksum], a space, [2n] characters and the newline
    in whole-frame mode. *)
Theorem line_length (sink : GstChecksumSink) (algorithm : GChecksumType)
    (buffer : GstBuffer) (tr : list event) :
  buffer_wf buffer ->
  fst (gst_checksum_sink_render
         (gst_checksum_sink_set_property sink (PROP_CHECKSUM_TYPE algorithm))
         buffer)
  = Returned GST_FLOW_OK tr ->
  String.length (printed tr)
  = (if plane_checksum sink
     then 3 * (2 * digest_size algorithm + 2) + 1
     else 15 + 2 * digest_size algorithm)%nat.
Proof.
  intros Hwf Hret.
  set (sink' := gst_checksum_sink_set_property sink
                  (PROP_CHECKSUM_TYPE algorithm)) in *.
  destruct (frame_size sink' buffer) as [width height] eqn:Hsize.
  destruct (frame_size_range _ _ _ _ Hwf Hsize) as [[Hw _] [Hh _]].
  destruct (render_returned_inv _ _ _ _ _ Hsize Hw Hh Hret)
    as (_ & _ & _ & b0 & b1 & b2 & _ & _ & _ & _ & ->).
  rewrite printed_frame_trace. cbv zeta.
  unfold sink'. cbn [gst_checksum_sink_set_property plane_checksum
                     checksum_type].
  destruct (plane_checksum sink);
    rewrite !string_length_app, !digest_length; cbn [String.length newline];
    lia.
Qed.

Lemma line_length_witness :
  String.length
    (printed (trace_of (fst (gst_checksum_sink_render
                               (gst_checksum_sink_set_property Sample.sink
                                  (PROP_CHECKSUM_TYPE G_CHECKSUM_MD5))
                               (Sample.buffer_of Sample.padded_frame)))))
  = 47%nat.
Proof.
  apply (line_length Sample.sink G_CHECKSUM_MD5
           (Sample.buffer_of Sample.padded_frame)).
  - exact I.
  - vm_compute. reflexivity.
Defined.

(** X8: a property reads back as it was set; setting one property leaves
    the other and the negotiated geometry as they were, and so does a
    change of caps leave both properties; only identifiers 1 and 2 are
    properties of the element. *)
Theorem property_round_trip (sink : GstChecksumSink) (prop : property) :
  gst_checksum_sink_get_property
    (gst_checksum_sink_set_property sink prop) (property_id prop)
  = Some prop
  /\ (forall prop_id, prop_id <> property_id prop ->
        gst_checksum_sink_get_property
          (gst_checksum_sink_set_property sink prop) prop_id
        = gst_checksum_sink_get_property sink prop_id)
  /\ vinfo (gst_checksum_sink_set_property sink prop) = vinfo sink
  /\ (forall caps prop_id,
        gst_checksum_sink_get_property
          (gst_checksum_sink_set_caps sink caps) prop_id
        = gst_checksum_sink_get_property sink prop_id)
  /\ (forall prop_id,
        gst_checksum_sink_get_property sink prop_id = None
        <-> prop_id <> 1 /\ prop_id <> 2).
Proof.
  split; [|split; [|split; [|split]]].
  - destruct prop; reflexivity.
  - intros prop_id Hid. unfold gst_checksum_sink_get_property.
    destruct prop; cbn [property_id] in Hid;
      cbn [gst_checksum_sink_set_property checksum_type plane_checksum].
    + destruct (prop_id =? 1) eqn:E; [apply Z.eqb_eq in E; lia|reflexivity].
    + destruct (prop_id =? 1); [reflexivity|].
      destruct (prop_id =? 2) eqn:E; [apply Z.eqb_eq in E; lia|reflexivity].
  - destruct prop; reflexivity.
  - intros [info|] prop_id; reflexivity.
  - intros prop_id. unfold gst_checksum_sink_get_property.
    destruct (prop_id =? 1) eqn:E1; [apply Z.eqb_eq in E1|apply Z.eqb_neq in E1].
    + split; [discriminate | lia].
    + destruct (prop_id =? 2) eqn:E2;
        [apply Z.eqb_eq in E2|apply Z.eqb_neq in E2].
      * split; [discriminate | lia].
      * split; [intros _; split; assumption | reflexivity].
Qed.

(* ================================================================== *)
(** ** Sizes and crops *)

Lemma packed_count_mono w' h' w h :
  0 <= w' <= w -> 0 <= h' <= h -> packed_count w' h' <= packed_count w h.
Proof.
  intros Hw Hh. unfold packed_count.
  assert (w' * h' <= w * h) by (apply Z.mul_le_mono_nonneg; lia).
  assert (0 <= w' / 2 <= w / 2)
    by (split; [apply Z.div_pos; lia | apply Z.div_le_mono; lia]).
  assert (0 <= h' / 2 <= h / 2)
    by (split; [apply Z.div_pos; lia | apply Z.div_le_mono; lia]).
  assert (w' / 2 * (h' / 2) <= w / 2 * (h / 2))
    by (apply Z.mul_le_mono_nonneg; lia).
  lia.
Qed.

Lemma load_shorter mem p n n' :
  load mem p n <> None -> 0 <= n' <= n -> load mem p n' <> None.
Proof.
  intros H Hn.
  destruct (load mem p n) as [bs|] eqn:Hl; [|contradiction].
  apply load_Some in Hl as (Hp & _ & Hb & _).
  unfold load.
  replace (0 <=? p) with true by (symmetry; apply Z.leb_le; lia).
  replace (0 <=? n') with true by (symmetry; apply Z.leb_le; lia).
  replace (p + n' <=? len mem) with true by (symmetry; apply Z.leb_le; lia).
  discriminate.
Qed.

Lemma readable_smaller frame w' h' w h :
  0 <= w' <= w -> 0 <= h' <= h ->
  readable frame w h -> readable frame w' h'.
Proof.
  intros Hw Hh Hread plane j Hp Hj.
  specialize (Hread plane j Hp).
  unfold get_plane_width_and_height, Word32.div, plane_row in *.
  assert (0 <= w' / 2 <= w / 2)
    by (split; [apply Z.div_pos; lia | apply Z.div_le_mono; lia]).
  assert (0 <= h' / 2 <= h / 2)
    by (split; [apply Z.div_pos; lia | apply Z.div_le_mono; lia]).
  destruct (plane =? 0); cbn [negb fst snd] in *;
    (eapply load_shorter; [apply Hread; lia | lia]).
Qed.

(** X10: cropping inside the negotiated frame cannot make a buffer
    unprocessable: when a buffer without crop metadata is processed, the
    same mapped frame with a crop no wider and no higher than the
    negotiated size is processed as well, with a scratch buffer of the
    crop's packed byte count, which is no larger. *)
Theorem crop_inside_processed (checksumsink : GstChecksumSink)
    (frame : GstVideoFrame) (crop : GstVideoCropMeta) (width height : Z)
    (tr : list event) :
  frame_size checksumsink (with_crop None frame) = (width, height) ->
  0 <= crop_width crop <= width ->
  0 <= crop_height crop <= height ->
  fst (gst_checksum_sink_render checksumsink (with_crop None frame))
  = Returned GST_FLOW_OK tr ->
  exists tr',
    fst (gst_checksum_sink_render checksumsink (with_crop (Some crop) frame))
    = Returned GST_FLOW_OK tr'
    /\ mallocs tr = [packed_count width height]
    /\ mallocs tr' = [packed_count (crop_width crop) (crop_height crop)]
    /\ packed_count (crop_width crop) (crop_height crop)
       <= packed_count width height.
Proof.
  intros Hsize Hcw Hch Hret.
  destruct (frame_size_range checksumsink (with_crop None frame) width
              height I Hsize) as [[Hw _] [Hh _]].
  destruct (render_returned_inv _ _ _ _ _ Hsize Hw Hh Hret)
    as (Hfmt & Hfit & frame' & b0 & b1 & b2 & Hmap & Hb0 & Hb1 & Hb2 & ->).
  injection Hmap as <-.
  assert (Hread : readable frame width height).
  { apply readable_planes. rewrite Hb0, Hb1, Hb2.
    repeat split; discriminate. }
  apply (readable_smaller _ _ _ _ _ Hcw Hch), readable_planes in Hread
    as (H0 & H1 & H2).
  pose proof (packed_count_mono _ _ _ _ Hcw Hch) as Hmono.
  destruct (plane_bytes frame (crop_width crop) (crop_height crop) 0)
    as [c0|] eqn:Hc0; [|contradiction].
  destruct (plane_bytes frame (crop_width crop) (crop_height crop) 1)
    as [c1|] eqn:Hc1; [|contradiction].
  destruct (plane_bytes frame (crop_width crop) (crop_height crop) 2)
    as [c2|] eqn:Hc2; [|contradiction].
  eexists. split; [|split; [apply mallocs_frame_trace|split]].
  - apply (render_ok checksumsink (with_crop (Some crop) frame) frame
             (crop_width crop) (crop_height crop) c0 c1 c2);
      try assumption; try reflexivity; lia.
  - apply mallocs_frame_trace.
  - exact Hmono.
Qed.

Lemma crop_inside_processed_witness :
  exists tr',
    fst (gst_checksum_sink_render Sample.sink
           (with_crop (Some {| crop_x := 0; crop_y := 0;
                               crop_width := 3; crop_height := 1 |})
              Sample.padded_frame))
    = Returned GST_FLOW_OK tr'
    /\ mallocs tr' = [3].
Proof.
  destruct (crop_inside_processed Sample.sink Sample.padded_frame
              {| crop_x := 0; crop_y := 0;
                 crop_width := 3; crop_height := 1 |} 4 4
              (trace_of (fst (gst_checksum_sink_render Sample.sink
                                (with_crop None Sample.padded_frame)))))
    as (tr' & H1 & _ & H2 & _).
  - reflexivity.
  - cbn; lia.
  - cbn; lia.
  - vm_compute. reflexivity.
  - exists tr'. split; [exact H1 | exact H2].
Defined.

(** X11: whenever the packed byte count fits 32 bits, the size of the
    scratch buffer lies between the size of the luma plane and one and a
    half times that size, which it reaches when width and height are both
    even; each chroma plane is at most a quarter of the luma plane. *)
Theorem packed_size_bounds (width height : Z) :
  0 <= width -> 0 <= height ->
  packed_count width height < Word32.modulus ->
  let '(Ysize, Usize, Vsize, size) := packed_sizes width height in
  Ysize = width * height
  /\ Vsize = Usize
  /\ 0 <= 4 * Usize <= Ysize
  /\ Ysize <= size
  /\ 2 * size <= 3 * Ysize
  /\ (width mod 2 = 0 -> height mod 2 = 0 -> 2 * size = 3 * Ysize).
Proof.
  intros Hw Hh Hfit.
  rewrite (packed_sizes_exact _ _ Hw Hh Hfit). unfold packed_count.
  pose proof (Z.div_mod width 2 ltac:(lia)) as Dw.
  pose proof (Z.mod_pos_bound width 2 ltac:(lia)) as Bw.
  pose proof (Z.div_mod height 2 ltac:(lia)) as Dh.
  pose proof (Z.mod_pos_bound height 2 ltac:(lia)) as Bh.
  pose proof (chroma_nonneg width height Hw Hh) as Hu.
  assert (Ha : 0 <= width / 2) by (apply Z.div_pos; lia).
  assert (Hb : 0 <= height / 2) by (apply Z.div_pos; lia).
  assert (Hq : 4 * (width / 2 * (height / 2)) <= width * height).
  { replace (4 * (width / 2 * (height / 2)))
      with ((2 * (width / 2)) * (2 * (height / 2))) by lia.
    apply Z.mul_le_mono_nonneg; lia. }
  repeat split; lia.
Qed.

Lemma packed_size_bounds_witness :
  let '(Ysize, Usize, Vsize, size) := packed_sizes 5 3 in
  Ysize = 5 * 3
  /\ Vsize = Usize
  /\ 0 <= 4 * Usize <= Ysize
  /\ Ysize <= size
  /\ 2 * size <= 3 * Ysize
  /\ (5 mod 2 = 0 -> 3 mod 2 = 0 -> 2 * size = 3 * Ysize).
Proof.
  apply (packed_size_bounds 5 3); [lia | lia | reflexivity].
Defined.

(* ================================================================== *)
(** ** Thin frames and exchanged chroma planes *)

Lemma len_zero_nil {A} (l : list A) : len l = 0 -> l = [].
Proof. destruct l; [reflexivity | unfold len; simpl; lia]. Qed.

(** X12: a frame less than two pixels wide or high has empty chroma
    planes: the scratch buffer has the size of the luma plane, the
    whole-frame digest is the digest of the luma plane alone, and in
    per-plane mode the second and third digests are those of the empty
    message. *)
Theorem thin_frame_luma_only (checksumsink : GstChecksumSink)
    (buffer : GstBuffer) (width height : Z) (tr : list event) :
  buffer_wf buffer ->
  frame_size checksumsink buffer = (width, height) ->
  width < 2 \/ height < 2 ->
  fst (gst_checksum_sink_render checksumsink buffer)
  = Returned GST_FLOW_OK tr ->
  let cs := g_compute_checksum_for_data (checksum_type checksumsink) in
  exists frame b0,
    buffer_frame buffer = Some frame
    /\ plane_bytes frame width height 0 = Some b0
    /\ mallocs tr = [width * height]
    /\ printed tr
       = if plane_checksum checksumsink
         then (cs b0 ++ "  " ++ cs [] ++ "  " ++ cs [] ++ "  "
               ++ newline)%string
         else ("FrameChecksum " ++ cs b0 ++ newline)%string.
Proof.
  intros Hwf Hsize Hthin Hret cs.
  destruct (frame_size_range _ _ _ _ Hwf Hsize) as [[Hw _] [Hh _]].
  destruct (render_returned_inv _ _ _ _ _ Hsize Hw Hh Hret)
    as (_ & _ & frame & b0 & b1 & b2 & Hmap & Hb0 & Hb1 & Hb2 & ->).
  pose proof (plane_bytes_length _ _ _ _ _ Hw Hh Hb1) as L1.
  pose proof (plane_bytes_length _ _ _ _ _ Hw Hh Hb2) as L2.
  cbn [Z.eqb] in L1, L2.
  assert (Hzero : width / 2 * (height / 2) = 0).
  { destruct Hthin as [H | H].
    - rewrite (Z.div_small width 2) by lia. lia.
    - rewrite (Z.div_small height 2) by lia. lia. }
  rewrite Hzero in L1, L2.
  apply len_zero_nil in L1, L2. subst b1 b2.
  exists frame, b0. repeat split; try assumption.
  - rewrite mallocs_frame_trace. unfold packed_count. rewrite Hzero.
    f_equal. lia.
  - rewrite printed_frame_trace. cbv zeta. fold cs.
    now rewrite !app_nil_r.
Qed.

Lemma thin_frame_luma_only_witness :
  mallocs (trace_of (fst (gst_checksum_sink_render Sample.sink
                            (with_crop
                               (Some {| crop_x := 0; crop_y := 0;
                                        crop_width := 1; crop_height := 4 |})
                               Sample.padded_frame))))
  = [1 * 4].
Proof.
  destruct (thin_frame_luma_only Sample.sink
              (with_crop (Some {| crop_x := 0; crop_y := 0;
                                  crop_width := 1; crop_height := 4 |})
                 Sample.padded_frame) 1 4
              (trace_of (fst (gst_checksum_sink_render Sample.sink
                                (with_crop
                                   (Some {| crop_x := 0; crop_y := 0;
                                            crop_width := 1;
                                            crop_height := 4 |})
                                   Sample.padded_frame)))))
    as (frame & b0 & _ & _ & H & _).
  - split; split; try discriminate; reflexivity.
  - reflexivity.
  - left; reflexivity.
  - vm_compute. reflexivity.
  - exact H.
Defined.




(* ================================================================== *)
(** ** The algorithm enumeration *)

(** X14: once [gst_checksum_sink_checksum_get_type] has returned a type,
    every later call returns that type and leaves the type system alone:
    the enumeration is registered once.  While registration fails (type
    0) the static variable stays 0, so the next call registers again. *)
Theorem get_type_registers_once (type_system : Type)
    (g_enum_register_static :
       string -> list GEnumValue -> type_system -> Z * type_system)
    (st st' : Z * type_system) (t : Z) :
  gst_checksum_sink_checksum_get_type type_system g_enum_register_static st
  = (t, st') ->
  (t <> 0 ->
   forall n,
     get_type_calls type_system g_enum_register_static n st'
     = (repeat t n, st'))
  /\ (t = 0 ->
      fst st' = 0
      /\ gst_checksum_sink_checksum_get_type type_system
           g_enum_register_static st'
         = (let '(t', types') :=
              g_enum_register_static "GChecksumType"%string checksum_values
                (snd st') in
            (t', (t', types')))).
Proof.
  intros Hcall.
  assert (Hst : fst st' = t).
  { revert Hcall. unfold gst_checksum_sink_checksum_get_type.
    destruct st as [c types]. destruct (c =? 0) eqn:E.
    - destruct (g_enum_register_static _ _ _) as [t0 types'].
      now intros [= <- <-].
    - now intros [= <- <-]. }
  split.
  - intros Ht n. induction n as [|n IH]; [reflexivity|].
    cbn [get_type_calls].
    assert (Hagain : gst_checksum_sink_checksum_get_type type_system
                       g_enum_register_static st' = (t, st')).
    { unfold gst_checksum_sink_checksum_get_type.
      destruct st' as [c types]. cbn [fst] in Hst. subst c.
      apply Z.eqb_neq in Ht. now rewrite Ht. }
    rewrite Hagain, IH. reflexivity.
  - intros ->. split; [assumption|].
    unfold gst_checksum_sink_checksum_get_type.
    destruct st' as [c types]. cbn [fst snd] in *. subst c. reflexivity.
Qed.

Lemma get_type_registers_once_witness :
  get_type_calls nat (fun _ values n => (Z.of_nat (S n), S n)) 3 (1, 1%nat)
  = ([1; 1; 1], (1, 1%nat)).
Proof.
  destruct (get_type_registers_once nat
              (fun _ values n => (Z.of_nat (S n), S n))
              (0, 0%nat) (1, 1%nat) 1) as [H _].
  - reflexivity.
  - apply (H ltac:(discriminate) 3%nat).
Defined.

(* ================================================================== *)
(** ** Streams *)

(** X15: the element keeps nothing from one buffer to the next: in a
    stream, each outcome is what rendering that buffer alone gives with
    the element as it was at the start, and every outcome but the last is
    a processed frame. *)
Theorem stream_frames_independent (checksumsink : GstChecksumSink) :
  forall (buffers : list GstBuffer) (k : nat) (o : outcome),
  nth_error (render_stream checksumsink buffers) k = Some o ->
  exists buffer,
    nth_error buffers k = Some buffer
    /\ o = fst (gst_checksum_sink_render checksumsink buffer)
    /\ forall j o', (j < k)%nat ->
         nth_error (render_stream checksumsink buffers) j = Some o' ->
         exists tr, o' = Returned GST_FLOW_OK tr.
Proof.
  induction buffers as [|buffer rest IH]; intros k o Hk.
  - destruct k; discriminate Hk.
  - cbn [render_stream] in *.
    pose proof (render_sink checksumsink buffer) as Hsink.
    destruct (gst_checksum_sink_render checksumsink buffer) as [o1 sink']
      eqn:Hr.
    cbn [snd] in Hsink. subst sink'.
    destruct k as [|k].
    + exists buffer. split; [reflexivity|]. split; [|intros j o' Hj; lia].
      rewrite Hr. cbn [fst]. destruct o1 as [[|] tr1 | tr1 |];
        cbn [nth_error] in Hk; now injection Hk as <-.
    + destruct o1 as [[|] tr1 | tr1 |];
        try (destruct k; discriminate Hk).
      cbn [nth_error] in Hk.
      destruct (IH k o Hk) as (b & Hb & Ho & Hprev).
      exists b. split; [exact Hb|]. split; [exact Ho|].
      intros [|j] o' Hj Hj'.
      * cbn [nth_error] in Hj'. injection Hj' as <-. now exists tr1.
      * cbn [nth_error] in Hj'. apply (Hprev j o'); [lia | exact Hj'].
Qed.

Lemma stream_frames_independent_witness :
  exists buffer,
    nth_error [Sample.cropped Sample.tight_frame;
               Sample.buffer_of Sample.padded_frame] 1 = Some buffer
    /\ fst (gst_checksum_sink_render Sample.sink
              (Sample.buffer_of Sample.tight_frame))
       = fst (gst_checksum_sink_render Sample.sink buffer).
Proof.
  destruct (stream_frames_independent Sample.sink
              [Sample.cropped Sample.tight_frame;
               Sample.buffer_of Sample.padded_frame] 1
              (fst (gst_checksum_sink_render Sample.sink
                      (Sample.buffer_of Sample.tight_frame))))
    as (buffer & Hb & Ho & _).
  - vm_compute. reflexivity.
  - exists buffer. split; [exact Hb | exact Ho].
Defined.
